(** * MINERVGA.LBR sprite library parser: a shallow embedding

    The development follows [parse_minervga_lbr.py].  Python [str] values are
    lists of characters (code points below 256), Python [int] values are [Z],
    and the two exceptions the parser can raise ([ValueError], [IndexError])
    are carried by an explicit [result] type.  Calls to [print] and the reads
    of the data list are recorded as events of a small writer monad. *)

From Stdlib Require Import String Ascii ZArith List Bool Lia.
From Stdlib Require DecimalString.
Import ListNotations.
Local Open Scope Z_scope.

(** ** Python values and builtins *)

Module Py.

Definition str := list ascii.

Definition lit (s : string) : str := list_ascii_of_string s.

Definition dquote : ascii := "034"%char.
Definition comma : ascii := ","%char.
Definition LF : ascii := "010"%char.

Inductive exn := ValueError | IndexError.

Inductive result (A : Type) : Type :=
| Ok (a : A)
| Raise (e : exn).
Arguments Ok {A} a.
Arguments Raise {A} e.

Definition rbind {A B} (r : result A) (k : A -> result B) : result B :=
  match r with
  | Ok a => k a
  | Raise e => Raise e
  end.

(** [len(l)] *)
Definition len {A} (l : list A) : Z := Z.of_nat (length l).

(** [range(n)]: empty when [n <= 0]. *)
Definition range (n : Z) : list Z := map Z.of_nat (seq 0 (Z.to_nat n)).

(** [range(n - 1, -1, -1)] *)
Definition range_down (n : Z) : list Z := rev (range n).

(** [l[i]] on a list: a negative index counts from the end, an index out of
    range raises [IndexError]. *)
Definition getitem {A} (l : list A) (i : Z) : result A :=
  let j := if i <? 0 then i + len l else i in
  if j <? 0 then Raise IndexError
  else match nth_error l (Z.to_nat j) with
       | Some a => Ok a
       | None => Raise IndexError
       end.

(** [l[a:b]] for literal bounds [0 <= a], [0 <= b]. *)
Definition slice {A} (l : list A) (a b : nat) : list A := skipn a (firstn b l).

(** [l[:stop]]: a negative [stop] counts from the end; both ends are clipped. *)
Definition slice_to {A} (l : list A) (stop : Z) : list A :=
  let stop' := if stop <? 0 then Z.max 0 (stop + len l) else Z.min stop (len l) in
  firstn (Z.to_nat stop') l.

(** [str.isspace] on one character, for code points below 256. *)
Definition isspace (c : ascii) : bool :=
  let n := nat_of_ascii c in
  ((9 <=? n) && (n <=? 13) || (28 <=? n) && (n <=? 32) || (n =? 133) || (n =? 160))%nat.

Fixpoint dropwhile {A} (p : A -> bool) (l : list A) : list A :=
  match l with
  | [] => []
  | a :: r => if p a then dropwhile p r else l
  end.

Definition strip_with (p : ascii -> bool) (s : str) : str :=
  rev (dropwhile p (rev (dropwhile p s))).

(** [s.strip()] *)
Definition strip (s : str) : str := strip_with isspace s.

(** [s.strip(c)] for a one-character argument. *)
Definition strip_char (c : ascii) (s : str) : str := strip_with (Ascii.eqb c) s.

(** [s.split(sep)] for a one-character separator: one more field than there
    are separators, so never an empty list. *)
Fixpoint split (sep : ascii) (s : str) : list str :=
  match s with
  | [] => [[]]
  | c :: r =>
      if Ascii.eqb c sep then [] :: split sep r
      else match split sep r with
           | [] => [[c]]
           | f :: fs => (c :: f) :: fs
           end
  end.

(** *** [int(s)]

    Whitespace around the literal is skipped (the characters [int] accepts as
    blank: tab to carriage return, space, and the two blanks above 127), then
    an optional sign, then decimal digits with single underscores allowed
    between digits.  Anything else is a [ValueError].  The interpreter's limit
    on the number of digits of a literal is not modelled. *)

Definition int_space (c : ascii) : bool :=
  let n := nat_of_ascii c in
  ((9 <=? n) && (n <=? 13) || (n =? 32) || (n =? 133) || (n =? 160))%nat.

Definition is_digit (c : ascii) : bool :=
  let n := nat_of_ascii c in ((48 <=? n) && (n <=? 57))%nat.

Definition digit_value (c : ascii) : Z := Z.of_nat (nat_of_ascii c) - 48.

Definition underscore : ascii := "_"%char.

Fixpoint scan_digits (prev_underscore : bool) (acc : Z) (s : str) : option Z :=
  match s with
  | [] => if prev_underscore then None else Some acc
  | c :: r =>
      if is_digit c then scan_digits false (10 * acc + digit_value c) r
      else if Ascii.eqb c underscore then
             if prev_underscore then None else scan_digits true acc r
           else None
  end.

Definition digits (s : str) : option Z :=
  match s with
  | [] => None
  | c :: _ => if is_digit c then scan_digits false 0 s else None
  end.

Definition int_opt (s : str) : option Z :=
  match strip_with int_space s with
  | c :: r =>
      if Ascii.eqb c "+"%char then digits r
      else if Ascii.eqb c "-"%char then option_map Z.opp (digits r)
      else digits (c :: r)
  | [] => None
  end.

Definition int (s : str) : result Z :=
  match int_opt s with
  | Some z => Ok z
  | None => Raise ValueError
  end.

End Py.

Import Py.

(** ** Events and the writer monad of the effectful functions *)

(** The messages the program prints (the exception text that follows
    [Error parsing line n:] is left out). *)
Inductive msg :=
| MsgLibrary (name : str)
| MsgSpriteCount (n : Z)
| MsgBlank
| MsgTooFewParts (line_num : Z)
| MsgErrorParsing (line_num : Z) (e : exn)
| MsgNotEnoughData (row : Z).

Inductive event :=
| Print (m : msg)
| ReadData (idx : Z).

Definition M (A : Type) : Type := (list event * result A)%type.

Definition ret {A} (a : A) : M A := ([], Ok a).

Definition bind {A B} (m : M A) (k : A -> M B) : M B :=
  match m with
  | (l, Ok a) => let '(l', r) := k a in (l ++ l', r)
  | (l, Raise e) => (l, Raise e)
  end.

Definition emit (e : event) : M unit := ([e], Ok tt).

Definition lift {A} (r : result A) : M A := ([], r).

Notation "x <- m ;; k" := (bind m (fun x => k))
  (at level 61, m at next level, right associativity).
Notation "m ;;; k" := (bind m (fun _ => k))
  (at level 61, right associativity).

Definition events {A} (m : M A) : list event := fst m.
Definition outcome {A} (m : M A) : result A := snd m.

(** ** PlaneDecoder *)

Definition signed_to_unsigned_16 (val : Z) : Z :=
  if val <? 0 then val + 65536 else val.

Definition extract_bits (value : Z) (num_bits : Z) : list Z :=
  let bits := map (fun i => Z.land (Z.shiftr value i) 1) (range_down num_bits) in
  slice bits 8 16 ++ slice bits 0 8.

(** The call sites use the default [num_bits=16]. *)
Definition extract_bits16 (value : Z) : list Z := extract_bits value 16.

Notation "x <~ r ;; k" := (rbind r (fun x => k))
  (at level 61, r at next level, right associativity).

(** ** SpriteRasterizer *)

(** [words_per_row] is computed by [parse_sprite_data] and never used. *)
Definition words_per_row (width : Z) : Z :=
  if negb (width mod 16 =? 0) then 4 else (width / 16) * 4.

(** [data_values[i]], with the index recorded before the access. *)
Definition read_data (data_values : list str) (i : Z) : M str :=
  emit (ReadData i) ;;; lift (getitem data_values i).

(** [for p in range(4): plane_values.append(signed_to_unsigned_16(int(...)))] *)
Fixpoint read_planes (data_values : list str) (data_idx : Z) (ps : list Z)
    (plane_values : list Z) : M (list Z) :=
  match ps with
  | [] => ret plane_values
  | p :: ps' =>
      tok <- read_data data_values (data_idx + p) ;;
      val <- lift (int tok) ;;
      read_planes data_values data_idx ps' (plane_values ++ [signed_to_unsigned_16 val])
  end.

(** [plane_bits[k][x]] *)
Definition plane_bit (plane_bits : list (list Z)) (k x : Z) : result Z :=
  bits <~ getitem plane_bits k ;; getitem bits x.

Definition pixel_color (plane_bits : list (list Z)) (x : Z) : result Z :=
  if x <? 16 then
    b0 <~ plane_bit plane_bits 0 x ;;
    b1 <~ plane_bit plane_bits 1 x ;;
    b2 <~ plane_bit plane_bits 2 x ;;
    b3 <~ plane_bit plane_bits 3 x ;;
    Ok (Z.lor (Z.lor (Z.lor (Z.shiftl b0 0) (Z.shiftl b1 1)) (Z.shiftl b2 2))
              (Z.shiftl b3 3))
  else Ok 0.

(** [for x in range(width): ... row_pixels.append(color)] *)
Fixpoint row_loop (plane_bits : list (list Z)) (xs : list Z) (row_pixels : list Z)
    : result (list Z) :=
  match xs with
  | [] => Ok row_pixels
  | x :: xs' =>
      color <~ pixel_color plane_bits x ;;
      row_loop plane_bits xs' (row_pixels ++ [color])
  end.

(** The plane values of one row: zeros with a warning when fewer than four
    words remain at the cursor, the four converted words otherwise. *)
Definition row_planes (data_values : list str) (data_idx row : Z) : M (list Z) :=
  if data_idx + 4 >? len data_values then
    emit (Print (MsgNotEnoughData row)) ;;; ret [0; 0; 0; 0]
  else read_planes data_values data_idx (range 4) [].

(** [for row in range(height): ...] with the cursor [data_idx] and the
    accumulated [pixels] threaded through. *)
Fixpoint rows_loop (data_values : list str) (width : Z) (rows : list Z)
    (data_idx : Z) (pixels : list (list Z)) : M (list (list Z)) :=
  match rows with
  | [] => ret pixels
  | row :: rows' =>
      plane_values <- row_planes data_values data_idx row ;;
      let data_idx := data_idx + 4 in
      let plane_bits := map extract_bits16 plane_values in
      row_pixels <- lift (row_loop plane_bits (range width) []) ;;
      rows_loop data_values width rows' data_idx (pixels ++ [row_pixels])
  end.

Definition parse_sprite_data (data_values : list str) (width height : Z)
    : M (list (list Z)) :=
  rows_loop data_values width (range height) 0 [].

(** ** RecordTokenizer: the character loop of [parse_lbr_file] *)

Record tok_state := TokState {
  parts : list str;
  in_quotes : bool;
  current : str
}.

Definition tok_char (st : tok_state) (char : ascii) : tok_state :=
  if Ascii.eqb char dquote then
    TokState (parts st) (negb (in_quotes st)) (current st ++ [char])
  else if Ascii.eqb char comma && negb (in_quotes st) then
    TokState (parts st ++ [strip (current st)]) (in_quotes st) []
  else
    TokState (parts st) (in_quotes st) (current st ++ [char]).

Definition tok_run (line : str) : tok_state :=
  fold_left tok_char line (TokState [] false []).

Definition tokenize (line : str) : list str :=
  let st := tok_run line in
  match current st with
  | [] => parts st
  | _ :: _ => parts st ++ [strip (current st)]
  end.

(** The tokenizer as the specification words it: a two-state pass (outside or
    inside quotes) that cuts the line into raw fields, each field trimmed
    afterwards. *)
Fixpoint raw_fields (inside : bool) (acc : str) (line : str) : list str :=
  match line with
  | [] => match acc with [] => [] | _ :: _ => [acc] end
  | c :: rest =>
      if Ascii.eqb c dquote then raw_fields (negb inside) (acc ++ [c]) rest
      else if inside then raw_fields inside (acc ++ [c]) rest
      else if Ascii.eqb c comma then acc :: raw_fields inside [] rest
      else raw_fields inside (acc ++ [c]) rest
  end.

Definition spec_tokenize (line : str) : list str :=
  map strip (raw_fields false [] line).

(** ** LibraryParser *)

Record sprite := Sprite {
  sprite_index : Z;
  sprite_name : str;
  sprite_width : Z;
  sprite_height : Z;
  sprite_data : list str
}.

Definition expected_data (width height : Z) : Z :=
  let expected := (width / 16) * 4 * height in
  if expected =? 0 then 4 * height else expected.

Definition trim_data (data_values : list str) (expected : Z) : list str :=
  if len data_values >? expected then slice_to data_values expected
  else data_values.

(** The body of the [try] block of one record line. *)
Definition parse_record (parts : list str) : result sprite :=
  p0 <~ getitem parts 0 ;;
  sprite_idx <~ int p0 ;;
  p1 <~ getitem parts 1 ;;
  let sprite_name := strip_char dquote p1 in
  p2 <~ getitem parts 2 ;;
  width <~ int p2 ;;
  p3 <~ getitem parts 3 ;;
  height <~ int p3 ;;
  let data_values := skipn 4 parts in
  let data_values := trim_data data_values (expected_data width height) in
  Ok (Sprite sprite_idx sprite_name width height data_values).

Definition is_empty {A} (l : list A) : bool :=
  match l with [] => true | _ :: _ => false end.

(** One iteration of [for line_num, line in enumerate(lines[1:], start=2)];
    both exceptions of the model are caught by the [except] clause. *)
Definition record_line (sprites : list sprite) (line_num : Z) (line : str)
    : M (list sprite) :=
  if is_empty (strip line) then ret sprites
  else
    let parts := tokenize line in
    if len parts <? 5 then
      emit (Print (MsgTooFewParts line_num)) ;;; ret sprites
    else
      match parse_record parts with
      | Ok sp => ret (sprites ++ [sp])
      | Raise e => emit (Print (MsgErrorParsing line_num e)) ;;; ret sprites
      end.

Fixpoint enumerate {A} (l : list A) (start : Z) : list (Z * A) :=
  match l with
  | [] => []
  | a :: r => (start, a) :: enumerate r (start + 1)
  end.

Fixpoint records_loop (numbered : list (Z * str)) (sprites : list sprite)
    : M (list sprite) :=
  match numbered with
  | [] => ret sprites
  | (line_num, line) :: rest =>
      sprites' <- record_line sprites line_num line ;;
      records_loop rest sprites'
  end.

(** [content.strip().split('\n')] *)
Definition doc_lines (content : str) : list str := split LF (strip content).

(** [parse_lbr_file], from the text read from the file. *)
Definition parse_lbr_file (content : str) : M (str * list sprite) :=
  let lines := doc_lines content in
  line0 <- lift (getitem lines 0) ;;
  let header_parts := split comma line0 in
  h0 <- lift (getitem header_parts 0) ;;
  let library_name := strip_char dquote h0 in
  h1 <- lift (getitem header_parts 1) ;;
  sprite_count <- lift (int h1) ;;
  emit (Print (MsgLibrary library_name)) ;;;
  emit (Print (MsgSpriteCount sprite_count)) ;;;
  emit (Print MsgBlank) ;;;
  sprites <- records_loop (enumerate (skipn 1 lines) 2) [] ;;
  ret (library_name, sprites).

(** The per-sprite decoding of [main]: every parsed sprite is rasterized in
    order, with no handler around the call. *)
Fixpoint rasterize_all (sprites : list sprite) : M (list (list (list Z))) :=
  match sprites with
  | [] => ret []
  | sp :: rest =>
      pixels <- parse_sprite_data (sprite_data sp) (sprite_width sp) (sprite_height sp) ;;
      grids <- rasterize_all rest ;;
      ret (pixels :: grids)
  end.

(** ** Reference functions used to state the properties *)

Definition is_numeric (tok : str) : bool :=
  match int_opt tok with Some _ => true | None => false end.

Definition all_numeric (data_values : list str) : Prop :=
  forallb is_numeric data_values = true.

(** The unsigned plane word held by token [i] of the data ([0] where there is
    no such token or it is not an integer literal). *)
Definition plane_word (data_values : list str) (i : Z) : Z :=
  match getitem data_values i with
  | Ok tok => match int_opt tok with
              | Some v => signed_to_unsigned_16 v
              | None => 0
              end
  | Raise _ => 0
  end.

Definition row_available (data_values : list str) (row : Z) : bool :=
  4 * row + 4 <=? len data_values.

Definition row_words (data_values : list str) (row : Z) : list Z :=
  if row_available data_values row
  then map (fun p => plane_word data_values (4 * row + p)) [0; 1; 2; 3]
  else [0; 0; 0; 0].

Definition row_events (data_values : list str) (row : Z) : list event :=
  if row_available data_values row
  then map (fun p => ReadData (4 * row + p)) [0; 1; 2; 3]
  else [Print (MsgNotEnoughData row)].

(** Bit [x] of a decoded plane word, in pixel order. *)
Definition decoded_bit (word x : Z) : Z := nth (Z.to_nat x) (extract_bits word 16) 0.

Definition combine_planes (b0 b1 b2 b3 : Z) : Z :=
  Z.lor (Z.lor (Z.lor b0 (Z.shiftl b1 1)) (Z.shiftl b2 2)) (Z.shiftl b3 3).

Definition color_at (words : list Z) (x : Z) : Z :=
  if x <? 16 then
    combine_planes (decoded_bit (nth 0 words 0) x) (decoded_bit (nth 1 words 0) x)
                   (decoded_bit (nth 2 words 0) x) (decoded_bit (nth 3 words 0) x)
  else 0.

Definition grid_of (data_values : list str) (width height : Z) : list (list Z) :=
  map (fun row => map (color_at (row_words data_values row)) (range width))
      (range height).

(** The characters of an integer literal, blanks apart: digits, signs and
    underscores. *)
Definition int_char (c : ascii) : bool :=
  is_digit c || Ascii.eqb c underscore || Ascii.eqb c "+"%char || Ascii.eqb c "-"%char.

(** The fields held by a tokenizer state once the line is exhausted. *)
Definition tok_fields (st : tok_state) : list str :=
  match current st with
  | [] => parts st
  | _ :: _ => parts st ++ [strip (current st)]
  end.

(** The quote characters of a text, in order. *)
Definition quotes (s : str) : str := filter (Ascii.eqb dquote) s.

(** The header is the first line of the stripped document. *)
Definition header_line (content : str) : str := hd [] (doc_lines content).



(** ** Sample inputs *)

Definition quoted (s : string) : str := dquote :: lit s ++ [dquote].

Definition join_lines (ls : list str) : str :=
  concat (map (fun l => l ++ [LF]) ls).

Definition sample_record : str :=
  lit "1," ++ quoted "Rock" ++ lit ",16,2,-1,0,255,-256,1,2,3,4,0,0".

Definition sample_doc : str :=
  join_lines [quoted "TestLib" ++ lit ",2"; sample_record; lit "2," ++ quoted "Bad"].

(** A record of width 35 with ten data tokens. *)
Definition wide_record : str :=
  lit "7," ++ quoted "Wide" ++ lit ",35,1,1,2,3,4,5,6,7,8,9,10".

(** A record whose second data token is not a number. *)
Definition garbled_doc : str :=
  join_lines [quoted "TestLib" ++ lit ",1";
              lit "3," ++ quoted "Bad" ++ lit ",16,1,1,oops,3,4,0,0"].

(** The 16-bit word whose decoding is [bits]: the halves are swapped back and
    the bits are read most significant first. *)
Definition pack_bits (bits : list Z) : Z :=
  fold_left (fun acc b => 2 * acc + b) (slice bits 8 16 ++ slice bits 0 8) 0.

(** The bit of a plane word shown at pixel column [x]. *)
Definition bit_index (x : Z) : Z := if x <? 8 then 7 - x else 23 - x.

(** Cutting the data at [n] tokens changes no row, provided every row that is
    available below [height] ends before the cut. *)
Definition cut_keeps_rows (data_values : list str) (height : Z) (n : nat) : Prop :=
  forall r, 0 <= r < height -> 4 * r + 4 <= len data_values -> 4 * r + 4 <= Z.of_nat n.

(** The tokens the rasterizer converts: those of the rows that are both below
    [height] and fully available. *)
Definition used_tokens (data_values : list str) (height : Z) : list str :=
  firstn (Z.to_nat (4 * Z.min height (len data_values / 4))) data_values.

(** A list of fields without its last field when that one is empty. *)
Fixpoint drop_last_empty (fields : list str) : list str :=
  match fields with
  | [] => []
  | [f] => match f with [] => [] | _ :: _ => [f] end
  | f :: fs => f :: drop_last_empty fs
  end.

(** ** Rendering: [create_sprite_image]

    The image library is modelled by what the function uses of it: an image
    is its size and its pixels; a new RGB image is black, and creating one of
    negative size is a [ValueError]; [putpixel] counts a negative coordinate
    from the far edge and raises [IndexError] outside the image. *)

Definition rgb : Type := (Z * Z * Z)%type.

Definition VGA_PALETTE : list rgb :=
  [(0, 0, 0); (0, 0, 170); (0, 170, 0); (0, 170, 170);
   (170, 0, 0); (170, 0, 170); (170, 85, 0); (170, 170, 170);
   (85, 85, 85); (85, 85, 255); (85, 255, 85); (85, 255, 255);
   (255, 85, 85); (255, 85, 255); (255, 255, 85); (255, 255, 255)].

Record image := Image {
  xsize : Z;
  ysize : Z;
  pixel : Z -> Z -> rgb
}.

(** [Image.new('RGB', (w, h))] *)
Definition Image_new (w h : Z) : result image :=
  if (w <? 0) || (h <? 0) then Raise ValueError
  else Ok (Image w h (fun _ _ => (0, 0, 0))).

(** [img.putpixel((x, y), value)] *)
Definition putpixel (img : image) (x y : Z) (value : rgb) : result image :=
  let x := if x <? 0 then xsize img + x else x in
  let y := if y <? 0 then ysize img + y else y in
  if (x <? 0) || (xsize img <=? x) || (y <? 0) || (ysize img <=? y)
  then Raise IndexError
  else Ok (Image (xsize img) (ysize img)
                 (fun a b => if (a =? x) && (b =? y) then value else pixel img a b)).

(** A [for] loop over [l] that threads a value through a body that may raise. *)
Fixpoint for_each {A S} (l : list A) (body : S -> A -> result S) (s : S) : result S :=
  match l with
  | [] => Ok s
  | a :: r => s' <~ body s a ;; for_each r body s'
  end.

Definition create_sprite_image (pixels : list (list Z)) (scale : Z) : result image :=
  let height := len pixels in
  let width := match pixels with [] => 0 | row0 :: _ => len row0 end in
  img <~ Image_new (width * scale) (height * scale) ;;
  for_each (enumerate pixels 0) (fun img '(y, row) =>
    for_each (enumerate row 0) (fun img '(x, color_idx) =>
      rgb <~ getitem VGA_PALETTE (color_idx mod 16) ;;
      for_each (range scale) (fun img sy =>
        for_each (range scale) (fun img sx =>
          putpixel img (x * scale + sx) (y * scale + sy) rgb) img) img) img) img.

(** The palette entry of a color index, as the renderer looks it up. *)
Definition palette_color (color_idx : Z) : rgb :=
  nth (Z.to_nat (color_idx mod 16)) VGA_PALETTE (0, 0, 0).

(** An image of the given size whose pixels in the region [R] are those of [f]. *)
Definition painted (w h : Z) (f : Z -> Z -> rgb) (img : image)
    (R : Z -> Z -> Prop) : Prop :=
  xsize img = w /\ ysize img = h /\ forall a b, R a b -> pixel img a b = f a b.

(** The region painted for one grid cell, one grid row of cells. *)
Definition cell_region (scale x y : Z) (a b : Z) : Prop :=
  exists sy, In sy (range scale) /\
  exists sx, In sx (range scale) /\ (a = x * scale + sx /\ b = y * scale + sy).

Definition row_region (scale : Z) (y : Z) (row : list Z) (a b : Z) : Prop :=
  exists xc, In xc (enumerate row 0) /\ cell_region scale (fst xc) y a b.

(** ** The file name and the sheet layout computed by [main] *)







Definition sprites_per_row : Z := 10.

(** [num_rows = (len(sprites) + sprites_per_row - 1) // sprites_per_row] *)
Definition num_rows (n : Z) : Z := (n + sprites_per_row - 1) / sprites_per_row.

(** The sheet size and the paste position of sprite [i], for a cell of
    [sprite_width] by [sprite_height] and a padding: [main] computes them
    twice, for 64 by 96 with padding 4 and for 16 by 24 with padding 1. *)
Definition sheet_width (sprite_width padding : Z) : Z :=
  sprites_per_row * (sprite_width + padding) + padding.

Definition sheet_height (n sprite_height padding : Z) : Z :=
  num_rows n * (sprite_height + padding) + padding.

Definition paste_position (sprite_width sprite_height padding i : Z) : Z * Z :=
  let row := i / sprites_per_row in
  let col := i mod sprites_per_row in
  (col * (sprite_width + padding) + padding,
   row * (sprite_height + padding) + padding).

(** * Properties *)

(** ** Plane decoder *)

Lemma land_shiftr_bit (u k : Z) :
  0 <= k -> Z.land (Z.shiftr u k) 1 = Z.b2z (Z.testbit u k).
Proof.
  intros Hk.
  change 1 with (Z.ones 1).
  rewrite Z.land_ones by lia.
  change (2 ^ 1) with 2.
  rewrite <- Z.bit0_mod, Z.shiftr_spec by lia.
  now rewrite Z.add_0_l.
Qed.

Lemma extract_bits16_unfold (u : Z) :
  extract_bits16 u =
  map (fun k => Z.b2z (Z.testbit u k))
      [7; 6; 5; 4; 3; 2; 1; 0; 15; 14; 13; 12; 11; 10; 9; 8].
Proof.
  cbv [extract_bits16 extract_bits range_down range slice Z.to_nat Pos.to_nat
       Pos.iter_op Nat.add seq map rev app firstn skipn Z.of_nat Pos.of_succ_nat
       Pos.succ].
  rewrite !land_shiftr_bit by lia.
  reflexivity.
Qed.

Lemma extract_bits16_length (u : Z) : length (extract_bits16 u) = 16%nat.
Proof. now rewrite extract_bits16_unfold. Qed.

Lemma signed_to_unsigned_16_mod (v : Z) :
  -32768 <= v < 32768 -> signed_to_unsigned_16 v = v mod 65536.
Proof.
  intros Hv. unfold signed_to_unsigned_16.
  destruct (Z.ltb_spec v 0).
  - apply Z.mod_unique with (q := -1); lia.
  - symmetry. apply Z.mod_small; lia.
Qed.

(** C2: a signed 16-bit word is reinterpreted as unsigned (65536 is added to a
    negative value, a non-negative one is unchanged) and decoded into sixteen
    bits: output index [i] is bit [7 - i] of the unsigned value for [i] in
    [0,7] and bit [23 - i] for [i] in [8,15]; the word [0xFF00] (the signed
    value [-256], or [65280] taken as it is) decodes into eight zeros
    followed by eight ones. *)
Theorem plane_decoder_half_swap (v : Z) (Hv : -32768 <= v < 32768) :
  let u := signed_to_unsigned_16 v in
  u = (if v <? 0 then v + 65536 else v) /\
  0 <= u < 65536 /\
  length (extract_bits u 16) = 16%nat /\
  (forall i, (i < 8)%nat ->
     nth i (extract_bits u 16) 0 = Z.b2z (Z.testbit u (7 - Z.of_nat i))) /\
  (forall i, (8 <= i < 16)%nat ->
     nth i (extract_bits u 16) 0 = Z.b2z (Z.testbit u (23 - Z.of_nat i))) /\
  extract_bits (signed_to_unsigned_16 (-256)) 16 =
    [0; 0; 0; 0; 0; 0; 0; 0; 1; 1; 1; 1; 1; 1; 1; 1] /\
  extract_bits (signed_to_unsigned_16 65280) 16 =
    [0; 0; 0; 0; 0; 0; 0; 0; 1; 1; 1; 1; 1; 1; 1; 1].
Proof.
  intros u.
  assert (Hu : 0 <= u < 65536).
  { subst u. rewrite signed_to_unsigned_16_mod by assumption.
    apply Z.mod_pos_bound. lia. }
  split; [reflexivity|].
  split; [exact Hu|].
  change (extract_bits u 16) with (extract_bits16 u).
  rewrite extract_bits16_unfold.
  split; [reflexivity|].
  split; [|split; [|split; reflexivity]].
  - intros i Hi.
    do 8 (destruct i as [|i]; [reflexivity|]). lia.
  - intros i Hi.
    do 8 (destruct i as [|i]; [lia|]).
    do 8 (destruct i as [|i]; [reflexivity|]). lia.
Qed.

Lemma plane_decoder_half_swap_witness :
  -32768 <= -256 < 32768 /\
  nth 8 (extract_bits (signed_to_unsigned_16 (-256)) 16) 0 =
    Z.b2z (Z.testbit (signed_to_unsigned_16 (-256)) (23 - Z.of_nat 8)).
Proof.
  assert (H : -32768 <= -256 < 32768) by lia.
  split; [exact H|].
  apply (plane_decoder_half_swap (-256) H). lia.
Defined.

(** ** Python list access *)

Lemma len_nonneg {A} (l : list A) : 0 <= len l.
Proof. unfold len. lia. Qed.

Lemma getitem_ok {A} (l : list A) (i : Z) (d : A) :
  0 <= i < len l -> getitem l i = Ok (nth (Z.to_nat i) l d).
Proof.
  intros Hi. unfold getitem, len in *.
  destruct (Z.ltb_spec i 0); [lia|].
  destruct (Z.ltb_spec i 0); [lia|].
  destruct (nth_error l (Z.to_nat i)) eqn:E.
  - now rewrite (nth_error_nth _ _ d E).
  - apply nth_error_None in E. lia.
Qed.

Lemma getitem_nth_error {A} (l : list A) (i : Z) (a : A) :
  0 <= i -> nth_error l (Z.to_nat i) = Some a -> getitem l i = Ok a.
Proof.
  intros Hi E. unfold getitem.
  destruct (Z.ltb_spec i 0); [lia|].
  destruct (Z.ltb_spec i 0); [lia|].
  now rewrite E.
Qed.

Lemma range_nonneg (n x : Z) : In x (range n) -> 0 <= x < n.
Proof.
  unfold range. rewrite in_map_iff. intros [k [<- Hk]].
  apply in_seq in Hk. lia.
Qed.

Lemma range_length (n : Z) : length (range n) = Z.to_nat n.
Proof. unfold range. now rewrite length_map, length_seq. Qed.

Lemma range_nth (n : Z) (k : nat) :
  (k < Z.to_nat n)%nat -> nth k (range n) 0 = Z.of_nat k.
Proof.
  intros Hk. unfold range.
  change 0 with (Z.of_nat 0). rewrite map_nth, seq_nth by assumption.
  reflexivity.
Qed.

(** ** Rasterizer: one pixel, one row *)

Lemma row_words_length (data_values : list str) (row : Z) :
  length (row_words data_values row) = 4%nat.
Proof. unfold row_words. now destruct (row_available _ _). Qed.

Lemma pixel_color_ok (words : list Z) (x : Z) :
  length words = 4%nat -> 0 <= x ->
  pixel_color (map extract_bits16 words) x = Ok (color_at words x).
Proof.
  intros Hl Hx.
  destruct words as [|a [|b [|c [|d [|? ?]]]]]; try discriminate.
  unfold pixel_color, color_at.
  destruct (Z.ltb_spec x 16); [|reflexivity].
  assert (Hb : forall w, getitem (extract_bits16 w) x = Ok (decoded_bit w x)).
  { intros w. unfold decoded_bit.
    change (extract_bits w 16) with (extract_bits16 w).
    apply getitem_ok. unfold len.
    rewrite (extract_bits16_length w). lia. }
  set (pb := map extract_bits16 [a; b; c; d]).
  assert (G0 : getitem pb 0 = Ok (extract_bits16 a)) by reflexivity.
  assert (G1 : getitem pb 1 = Ok (extract_bits16 b)) by reflexivity.
  assert (G2 : getitem pb 2 = Ok (extract_bits16 c)) by reflexivity.
  assert (G3 : getitem pb 3 = Ok (extract_bits16 d)) by reflexivity.
  unfold plane_bit. rewrite G0, G1, G2, G3. cbn [rbind nth].
  rewrite !Hb. cbn [rbind]. rewrite Z.shiftl_0_r. reflexivity.
Qed.

Lemma row_loop_ok (words : list Z) (xs acc : list Z) :
  length words = 4%nat -> Forall (fun x => 0 <= x) xs ->
  row_loop (map extract_bits16 words) xs acc = Ok (acc ++ map (color_at words) xs).
Proof.
  intros Hl Hxs. revert acc.
  induction Hxs as [|x xs Hx _ IH]; intros acc; cbn [row_loop map].
  - now rewrite app_nil_r.
  - rewrite pixel_color_ok by assumption. cbn [rbind].
    rewrite IH, <- app_assoc. reflexivity.
Qed.

Lemma range_Forall_nonneg (n : Z) : Forall (fun x => 0 <= x) (range n).
Proof. apply Forall_forall. intros x Hx. apply range_nonneg in Hx. lia. Qed.

(** ** Rasterizer: the plane words of a row, and the row loop *)

Lemma read_data_eq (data_values : list str) (i : Z) :
  read_data data_values i = ([ReadData i], getitem data_values i).
Proof. unfold read_data. now destruct (getitem data_values i). Qed.

Lemma numeric_word (data_values : list str) (i : Z) :
  all_numeric data_values -> 0 <= i < len data_values ->
  exists tok v,
    nth_error data_values (Z.to_nat i) = Some tok /\
    getitem data_values i = Ok tok /\
    int_opt tok = Some v /\
    plane_word data_values i = signed_to_unsigned_16 v.
Proof.
  intros Hn Hi. unfold len in Hi.
  destruct (nth_error data_values (Z.to_nat i)) as [tok|] eqn:E.
  2:{ apply nth_error_None in E. lia. }
  assert (G : getitem data_values i = Ok tok)
    by (apply getitem_nth_error; [lia | exact E]).
  unfold all_numeric in Hn. rewrite forallb_forall in Hn.
  specialize (Hn tok (nth_error_In _ _ E)). unfold is_numeric in Hn.
  destruct (int_opt tok) as [v|] eqn:Ev; [|discriminate].
  exists tok, v. unfold plane_word. rewrite G, Ev. auto.
Qed.

Lemma read_planes_ok (data_values : list str) (idx : Z) (ps acc : list Z) :
  all_numeric data_values ->
  (forall p, In p ps -> 0 <= idx + p < len data_values) ->
  read_planes data_values idx ps acc =
  (map (fun p => ReadData (idx + p)) ps,
   Ok (acc ++ map (fun p => plane_word data_values (idx + p)) ps)).
Proof.
  intros Hn. revert acc.
  induction ps as [|p ps IH]; intros acc Hps; cbn [read_planes map].
  - unfold ret. now rewrite app_nil_r.
  - destruct (numeric_word data_values (idx + p) Hn) as (tok & v & _ & G & Ev & W).
    { apply Hps. now left. }
    rewrite read_data_eq, G. cbn [bind].
    unfold int. rewrite Ev. cbn [bind lift].
    rewrite IH by (intros q Hq; apply Hps; now right).
    rewrite W, <- app_assoc. reflexivity.
Qed.

Lemma row_planes_ok (data_values : list str) (row : Z) :
  all_numeric data_values -> 0 <= row ->
  row_planes data_values (4 * row) row =
  (row_events data_values row, Ok (row_words data_values row)).
Proof.
  intros Hn Hrow.
  unfold row_planes, row_events, row_words, row_available.
  rewrite Z.gtb_ltb.
  destruct (Z.ltb_spec (len data_values) (4 * row + 4));
    destruct (Z.leb_spec (4 * row + 4) (len data_values)); try lia.
  - reflexivity.
  - change (range 4) with [0; 1; 2; 3].
    rewrite read_planes_ok; [reflexivity | assumption |].
    cbn [In]. intros p Hp. lia.
Qed.

Lemma rows_loop_ok (data_values : list str) (width : Z) :
  all_numeric data_values ->
  forall (m k : nat) (acc : list (list Z)),
    rows_loop data_values width (map Z.of_nat (seq k m)) (4 * Z.of_nat k) acc =
    (flat_map (row_events data_values) (map Z.of_nat (seq k m)),
     Ok (acc ++ map (fun row => map (color_at (row_words data_values row))
                                    (range width))
                    (map Z.of_nat (seq k m)))).
Proof.
  intros Hn. induction m as [|m IH]; intros k acc;
    cbn [seq map rows_loop flat_map].
  - unfold ret. now rewrite app_nil_r.
  - rewrite row_planes_ok by (assumption || lia).
    cbn [bind].
    rewrite row_loop_ok
      by (apply row_words_length || apply range_Forall_nonneg).
    replace (4 * Z.of_nat k + 4) with (4 * Z.of_nat (S k)) by lia.
    cbn [bind lift app]. rewrite IH. cbn [app].
    rewrite <- app_assoc. reflexivity.
Qed.

(** With integer tokens the rasterizer returns the reference grid, and its
    events are the reads and warnings of the rows in order. *)
Lemma parse_sprite_data_ok (data_values : list str) (width height : Z) :
  all_numeric data_values ->
  parse_sprite_data data_values width height =
  (flat_map (row_events data_values) (range height),
   Ok (grid_of data_values width height)).
Proof.
  intros Hn.
  exact (rows_loop_ok data_values width Hn (Z.to_nat height) 0%nat []).
Qed.

(** ** Rasterizer: shape of the reference grid *)

Lemma range_in (n x : Z) : 0 <= x < n -> In x (range n).
Proof.
  intros Hx. unfold range. apply in_map_iff.
  exists (Z.to_nat x). split; [lia|]. apply in_seq. lia.
Qed.

Lemma grid_of_length (data_values : list str) (width height : Z) :
  length (grid_of data_values width height) = Z.to_nat height.
Proof. unfold grid_of. now rewrite length_map, range_length. Qed.

Lemma grid_of_row (data_values : list str) (width height row : Z) :
  0 <= row < height ->
  nth (Z.to_nat row) (grid_of data_values width height) [] =
  map (color_at (row_words data_values row)) (range width).
Proof.
  intros Hrow. unfold grid_of.
  set (f := fun r => map (color_at (row_words data_values r)) (range width)).
  rewrite (nth_indep _ [] (f 0))
    by (rewrite length_map, range_length; lia).
  rewrite map_nth, range_nth by lia.
  now rewrite Z2Nat.id by lia.
Qed.

Lemma grid_of_pixel (data_values : list str) (width height row x : Z) :
  0 <= row < height -> 0 <= x < width ->
  nth (Z.to_nat x) (nth (Z.to_nat row) (grid_of data_values width height) []) 0 =
  color_at (row_words data_values row) x.
Proof.
  intros Hrow Hx. rewrite grid_of_row by assumption.
  set (f := color_at (row_words data_values row)).
  rewrite (nth_indep _ 0 (f 0))
    by (rewrite length_map, range_length; lia).
  rewrite map_nth, range_nth by lia.
  now rewrite Z2Nat.id by lia.
Qed.

Lemma decoded_bit_zero (x : Z) : decoded_bit 0 x = 0.
Proof.
  unfold decoded_bit.
  change (extract_bits 0 16) with (repeat 0 16).
  apply nth_repeat.
Qed.

Lemma color_at_zero (x : Z) : color_at [0; 0; 0; 0] x = 0.
Proof.
  unfold color_at. destruct (x <? 16); [|reflexivity].
  cbn [nth]. now rewrite decoded_bit_zero.
Qed.

Lemma zero_row (width : Z) :
  map (color_at [0; 0; 0; 0]) (range width) = repeat 0 (Z.to_nat width).
Proof.
  rewrite (map_ext _ (fun _ => 0) color_at_zero), map_const.
  now rewrite range_length.
Qed.

Lemma row_words_short (data_values : list str) (row : Z) :
  4 * row + 4 > len data_values -> row_words data_values row = [0; 0; 0; 0].
Proof.
  intros H. unfold row_words, row_available.
  destruct (Z.leb_spec (4 * row + 4) (len data_values)); [lia | reflexivity].
Qed.

Lemma ReadData_inj (a b : Z) : ReadData a = ReadData b -> a = b.
Proof. congruence. Qed.

Lemma row_events_reads (data_values : list str) (row i : Z) :
  0 <= row -> In (ReadData i) (row_events data_values row) ->
  0 <= i < len data_values.
Proof.
  intros Hrow. unfold row_events, row_available.
  destruct (Z.leb_spec (4 * row + 4) (len data_values)); cbn [map In].
  - intros [E|[E|[E|[E|[]]]]]; apply ReadData_inj in E; lia.
  - intros [E|[]]. discriminate.
Qed.

(** C3: for [width >= 1], [height >= 1] and data made of integer tokens (of
    any length), the rasterizer raises no exception and returns a grid of
    exactly [height] rows; a row whose four plane words are not all available
    at its cursor is decoded from all-zero planes (it is all zeros, and a
    warning is printed for it); every index read from the data lies inside the
    data; with empty data the grid is entirely color 0. *)
Theorem rasterizer_pads_short_data (data_values : list str) (width height : Z)
    (Hw : 1 <= width) (Hh : 1 <= height) (Hn : all_numeric data_values) :
  exists grid,
    outcome (parse_sprite_data data_values width height) = Ok grid /\
    length grid = Z.to_nat height /\
    (forall row, 0 <= row < height -> 4 * row + 4 > len data_values ->
       nth (Z.to_nat row) grid [] = repeat 0 (Z.to_nat width) /\
       In (Print (MsgNotEnoughData row))
          (events (parse_sprite_data data_values width height))) /\
    (forall i, In (ReadData i) (events (parse_sprite_data data_values width height)) ->
       0 <= i < len data_values) /\
    (data_values = [] ->
       grid = repeat (repeat 0 (Z.to_nat width)) (Z.to_nat height)).
Proof.
  exists (grid_of data_values width height).
  rewrite parse_sprite_data_ok by assumption.
  cbn [outcome events fst snd].
  split; [reflexivity|].
  split; [apply grid_of_length|].
  split; [|split].
  - intros row Hrow Hshort. split.
    + rewrite grid_of_row, row_words_short by assumption. apply zero_row.
    + apply in_flat_map. exists row. split; [now apply range_in|].
      unfold row_events, row_available.
      destruct (Z.leb_spec (4 * row + 4) (len data_values)); [lia|].
      now left.
  - intros i Hi. apply in_flat_map in Hi. destruct Hi as (row & Hrow & Hi).
    apply range_nonneg in Hrow.
    apply (row_events_reads data_values row); [lia | exact Hi].
  - intros ->. unfold grid_of.
    rewrite (map_ext_in _ (fun _ => repeat 0 (Z.to_nat width))).
    + now rewrite map_const, range_length.
    + intros row Hrow. apply range_nonneg in Hrow.
      rewrite row_words_short by (change (len (@nil str)) with 0; lia).
      apply zero_row.
Qed.

Lemma rasterizer_pads_short_data_witness :
  exists grid,
    outcome (parse_sprite_data (map lit ["-1"; "0"; "255"; "-256"; "7"]%string) 16 2)
      = Ok grid /\
    length grid = 2%nat /\
    nth 1 grid [] = repeat 0 16.
Proof.
  assert (Hn : all_numeric (map lit ["-1"; "0"; "255"; "-256"; "7"]%string))
    by reflexivity.
  destruct (rasterizer_pads_short_data _ 16 2 ltac:(lia) ltac:(lia) Hn)
    as (grid & Hg & Hl & Hz & _).
  exists grid. split; [exact Hg|]. split; [exact Hl|].
  apply (Hz 1); cbn; lia.
Defined.

(** ** Rasterizer: the color of a pixel *)

Lemma decoded_bit_01 (word x : Z) : decoded_bit word x = 0 \/ decoded_bit word x = 1.
Proof.
  unfold decoded_bit. change (extract_bits word 16) with (extract_bits16 word).
  rewrite extract_bits16_unfold.
  generalize (Z.to_nat x) as n. intros n. cbn [map].
  do 16 (destruct n as [|n];
         [cbn [nth]; destruct (Z.testbit word _); cbn [Z.b2z]; lia|]).
  cbn [nth]. destruct n; lia.
Qed.

Lemma combine_planes_range (b0 b1 b2 b3 : Z) :
  b0 = 0 \/ b0 = 1 -> b1 = 0 \/ b1 = 1 -> b2 = 0 \/ b2 = 1 -> b3 = 0 \/ b3 = 1 ->
  0 <= combine_planes b0 b1 b2 b3 <= 15.
Proof.
  intros [-> | ->] [-> | ->] [-> | ->] [-> | ->]; vm_compute;
    split; discriminate.
Qed.

Lemma color_at_range (words : list Z) (x : Z) : 0 <= color_at words x <= 15.
Proof.
  unfold color_at. destruct (x <? 16); [|lia].
  apply combine_planes_range; apply decoded_bit_01.
Qed.

Lemma cursor_words (data_values : list str) (row : Z) (t0 t1 t2 t3 : str) :
  0 <= row ->
  firstn 4 (skipn (Z.to_nat (4 * row)) data_values) = [t0; t1; t2; t3] ->
  4 * row + 4 <= len data_values /\
  getitem data_values (4 * row + 0) = Ok t0 /\
  getitem data_values (4 * row + 1) = Ok t1 /\
  getitem data_values (4 * row + 2) = Ok t2 /\
  getitem data_values (4 * row + 3) = Ok t3.
Proof.
  intros Hrow H.
  assert (Hp : forall p t, (p < 4)%nat -> nth_error [t0; t1; t2; t3] p = Some t ->
                 nth_error data_values (Z.to_nat (4 * row + Z.of_nat p)) = Some t).
  { intros p t Hp Ht. rewrite <- H in Ht.
    rewrite nth_error_firstn in Ht.
    destruct (Nat.ltb_spec p 4); [|lia].
    rewrite nth_error_skipn in Ht.
    replace (Z.to_nat (4 * row + Z.of_nat p)) with (Z.to_nat (4 * row) + p)%nat by lia.
    exact Ht. }
  split.
  - assert (E := Hp 3%nat t3 ltac:(lia) eq_refl).
    assert (L : (Z.to_nat (4 * row + Z.of_nat 3) < length data_values)%nat)
      by (apply nth_error_Some; congruence).
    unfold len. lia.
  - repeat split.
    + apply getitem_nth_error; [lia|]. exact (Hp 0%nat t0 ltac:(lia) eq_refl).
    + apply getitem_nth_error; [lia|]. exact (Hp 1%nat t1 ltac:(lia) eq_refl).
    + apply getitem_nth_error; [lia|]. exact (Hp 2%nat t2 ltac:(lia) eq_refl).
    + apply getitem_nth_error; [lia|]. exact (Hp 3%nat t3 ltac:(lia) eq_refl).
Qed.

Lemma plane_word_of (data_values : list str) (i : Z) (tok : str) (v : Z) :
  getitem data_values i = Ok tok -> int_opt tok = Some v ->
  plane_word data_values i = signed_to_unsigned_16 v.
Proof. intros G E. unfold plane_word. now rewrite G, E. Qed.



(** ** Rasterizer: a token that is not an integer literal *)

Lemma read_planes_cases (data_values : list str) (idx : Z) (ps acc : list Z) :
  (forall p, In p ps -> 0 <= idx + p < len data_values) ->
  (exists evs vals,
      read_planes data_values idx ps acc = (evs, Ok vals) /\
      length vals = (length acc + length ps)%nat /\
      forall p, In p ps ->
        exists tok v, nth_error data_values (Z.to_nat (idx + p)) = Some tok /\
                      int_opt tok = Some v) \/
  (exists evs, read_planes data_values idx ps acc = (evs, Raise ValueError)).
Proof.
  revert acc. induction ps as [|p ps IH]; intros acc Hps; cbn [read_planes].
  - left. exists [], acc. cbn [length In]. repeat split; [lia | tauto].
  - assert (Hp : 0 <= idx + p < len data_values) by (apply Hps; now left).
    unfold len in Hp.
    destruct (nth_error data_values (Z.to_nat (idx + p))) as [tok|] eqn:E.
    2:{ apply nth_error_None in E. lia. }
    rewrite read_data_eq, (getitem_nth_error _ _ tok) by (lia || assumption).
    cbn [bind]. unfold int.
    destruct (int_opt tok) as [v|] eqn:Ev; cbn [bind lift].
    + destruct (IH (acc ++ [signed_to_unsigned_16 v])) as
        [(evs & vals & -> & Hl & Hall) | (evs & ->)].
      { intros q Hq. apply Hps. now right. }
      * left. exists ([ReadData (idx + p)] ++ [] ++ evs), vals.
        split; [reflexivity|]. split.
        -- rewrite Hl, length_app. cbn [length]. lia.
        -- intros q [<- | Hq]; [exists tok, v; auto | now apply Hall].
      * right. eexists. reflexivity.
    + right. eexists. reflexivity.
Qed.

Lemma row_planes_cases (data_values : list str) (row : Z) :
  0 <= row -> 4 * row + 4 <= len data_values ->
  (exists evs vals,
      row_planes data_values (4 * row) row = (evs, Ok vals) /\
      length vals = 4%nat /\
      forall p, 0 <= p < 4 ->
        exists tok v, nth_error data_values (Z.to_nat (4 * row + p)) = Some tok /\
                      int_opt tok = Some v) \/
  (exists evs, row_planes data_values (4 * row) row = (evs, Raise ValueError)).
Proof.
  intros Hrow Hav. unfold row_planes. rewrite Z.gtb_ltb.
  destruct (Z.ltb_spec (len data_values) (4 * row + 4)); [lia|].
  change (range 4) with [0; 1; 2; 3].
  destruct (read_planes_cases data_values (4 * row) [0; 1; 2; 3] [])
    as [(evs & vals & E & Hl & Hall) | (evs & E)].
  - cbn [In]. intros p Hp. lia.
  - left. exists evs, vals. split; [exact E|]. split; [exact Hl|].
    intros p Hp. apply Hall. cbn [In]. lia.
  - right. now exists evs.
Qed.

Lemma rows_loop_bad_token (data_values : list str) (width row p : Z) (tok : str) :
  4 * row + 4 <= len data_values -> 0 <= p < 4 ->
  nth_error data_values (Z.to_nat (4 * row + p)) = Some tok ->
  int_opt tok = None ->
  forall (m k : nat) (acc : list (list Z)),
    Z.of_nat k <= row < Z.of_nat k + Z.of_nat m ->
    outcome (rows_loop data_values width (map Z.of_nat (seq k m))
                       (4 * Z.of_nat k) acc) = Raise ValueError.
Proof.
  intros Hav Hp Htok Hbad.
  induction m as [|m IH]; intros k acc Hk; [lia|].
  cbn [seq map rows_loop].
  destruct (row_planes_cases data_values (Z.of_nat k))
    as [(evs & vals & -> & Hl & Hall) | (evs & ->)]; [lia | lia | |].
  - cbn [bind]. rewrite row_loop_ok by (assumption || apply range_Forall_nonneg).
    cbn [bind lift].
    replace (4 * Z.of_nat k + 4) with (4 * Z.of_nat (S k)) by lia.
    destruct (Z.eq_dec (Z.of_nat k) row) as [Heq | Hne].
    + rewrite Heq in Hall.
      destruct (Hall p Hp) as (tok' & v & E & Ev). congruence.
    + specialize (IH (S k) (acc ++ [map (color_at vals) (range width)])
                     ltac:(lia)).
      destruct (rows_loop _ _ _ _ _) as [evs' r]. cbn [outcome snd] in *.
      now subst r.
  - reflexivity.
Qed.

Lemma rasterizer_bad_token (data_values : list str) (width height row p : Z)
    (tok : str) :
  0 <= row < height -> 4 * row + 4 <= len data_values -> 0 <= p < 4 ->
  nth_error data_values (Z.to_nat (4 * row + p)) = Some tok ->
  int_opt tok = None ->
  outcome (parse_sprite_data data_values width height) = Raise ValueError.
Proof.
  intros Hrow Hav Hp Htok Hbad. unfold parse_sprite_data, range.
  apply (rows_loop_bad_token data_values width row p tok Hav Hp Htok Hbad
           (Z.to_nat height) 0%nat []).
  lia.
Qed.

(** ** [split], [strip] and [int] *)

Lemma split_nonempty (sep : ascii) (s : str) : split sep s <> [].
Proof.
  destruct s as [|c r]; cbn [split]; [discriminate|].
  destruct (Ascii.eqb c sep); [discriminate|].
  destruct (split sep r); discriminate.
Qed.

Lemma split_no_sep (sep : ascii) (s : str) : ~ In sep s -> split sep s = [s].
Proof.
  induction s as [|c r IH]; intros Hn; cbn [split]; [reflexivity|].
  destruct (Ascii.eqb_spec c sep) as [->|Hc].
  - exfalso. apply Hn. now left.
  - rewrite IH; [reflexivity|]. intros H. apply Hn. now right.
Qed.

Lemma split_app_sep (sep : ascii) (a b : str) :
  ~ In sep a -> split sep (a ++ sep :: b) = a :: split sep b.
Proof.
  induction a as [|c r IH]; intros Hn; cbn [split app].
  - now rewrite Ascii.eqb_refl.
  - destruct (Ascii.eqb_spec c sep) as [->|Hc].
    + exfalso. apply Hn. now left.
    + rewrite IH; [reflexivity|]. intros H. apply Hn. now right.
Qed.

Lemma split_with_sep (sep : ascii) (s : str) :
  In sep s -> exists f0 f1 rest, split sep s = f0 :: f1 :: rest.
Proof.
  induction s as [|c r IH]; intros Hin; [destruct Hin|].
  cbn [split]. destruct (Ascii.eqb_spec c sep) as [->|Hc].
  - destruct (split sep r) as [|f fs] eqn:E.
    + now apply split_nonempty in E.
    + now exists [], f, fs.
  - destruct Hin as [->|Hin]; [congruence|].
    destruct (IH Hin) as (f0 & f1 & rest & ->).
    now exists (c :: f0), f1, rest.
Qed.

Lemma split_fields_no_sep (sep : ascii) (s : str) :
  Forall (fun f => ~ In sep f) (split sep s).
Proof.
  induction s as [|c r IH]; cbn [split].
  - constructor; [tauto | constructor].
  - destruct (Ascii.eqb_spec c sep) as [->|Hc].
    + constructor; [tauto | exact IH].
    + destruct (split sep r) as [|f fs].
      * constructor; [|constructor]. intros [H|[]]. congruence.
      * inversion IH as [|? ? Hf Hfs]; subst.
        constructor; [|exact Hfs]. intros [H|H]; [congruence | tauto].
Qed.


Lemma dropwhile_In {A} (p : A -> bool) (l : list A) (a : A) :
  In a (dropwhile p l) -> In a l.
Proof.
  induction l as [|b r IH]; cbn [dropwhile]; [tauto|].
  destruct (p b); [|tauto]. intros H. right. now apply IH.
Qed.

Lemma dropwhile_keeps {A} (p : A -> bool) (l : list A) (a : A) :
  p a = false -> In a l -> In a (dropwhile p l).
Proof.
  intros Ha. induction l as [|b r IH]; cbn [dropwhile]; [tauto|].
  intros Hin. destruct (p b) eqn:Eb; [|exact Hin].
  destruct Hin as [->|Hin]; [congruence | now apply IH].
Qed.


Lemma dropwhile_app {A} (p : A -> bool) (a b : list A) :
  dropwhile p (a ++ b) =
  match dropwhile p a with
  | [] => dropwhile p b
  | _ :: _ => dropwhile p a ++ b
  end.
Proof.
  induction a as [|c r IH]; cbn [dropwhile app].
  - reflexivity.
  - destruct (p c); [exact IH | reflexivity].
Qed.

Lemma strip_with_In (p : ascii -> bool) (s : str) (c : ascii) :
  In c (strip_with p s) -> In c s.
Proof.
  unfold strip_with. intros H.
  apply in_rev, dropwhile_In, in_rev, dropwhile_In in H. exact H.
Qed.

Lemma strip_with_keeps (p : ascii -> bool) (s : str) (c : ascii) :
  p c = false -> In c s -> In c (strip_with p s).
Proof.
  unfold strip_with. intros Hp H.
  apply in_rev. rewrite rev_involutive.
  apply dropwhile_keeps; [exact Hp|]. apply in_rev. rewrite rev_involutive.
  now apply dropwhile_keeps.
Qed.


Lemma scan_digits_chars (s : str) (b : bool) (acc v : Z) :
  scan_digits b acc s = Some v -> forallb int_char s = true.
Proof.
  revert b acc. induction s as [|c r IH]; intros b acc; cbn [scan_digits forallb];
    [reflexivity|].
  unfold int_char at 1.
  destruct (is_digit c); cbn [orb andb]; [apply IH|].
  destruct (Ascii.eqb c underscore); cbn [orb andb]; [|discriminate].
  destruct b; [discriminate | apply IH].
Qed.

Lemma digits_chars (s : str) (v : Z) : digits s = Some v -> forallb int_char s = true.
Proof.
  unfold digits. destruct s as [|c r]; [discriminate|].
  destruct (is_digit c); [apply scan_digits_chars | discriminate].
Qed.

Lemma int_opt_chars (s : str) (v : Z) (c : ascii) :
  int_opt s = Some v -> In c s -> int_space c = false -> int_char c = true.
Proof.
  unfold int_opt. intros H Hin Hsp.
  apply (strip_with_keeps int_space) in Hin; [|exact Hsp].
  destruct (strip_with int_space s) as [|a r]; [discriminate|].
  assert (Hall : forallb int_char (a :: r) = true).
  { destruct (Ascii.eqb a "+"%char) eqn:Ep.
    - cbn [forallb]. apply digits_chars in H. rewrite H.
      unfold int_char. rewrite Ep. now rewrite !orb_true_r.
    - destruct (Ascii.eqb a "-"%char) eqn:Em.
      + destruct (digits r) as [d|] eqn:Ed; [|discriminate].
        cbn [forallb]. apply digits_chars in Ed. rewrite Ed.
        unfold int_char. rewrite Em. now rewrite !orb_true_r.
      + now apply digits_chars in H. }
  rewrite forallb_forall in Hall. now apply Hall.
Qed.

Lemma int_opt_dquote (s : str) : In dquote s -> int_opt s = None.
Proof.
  intros Hin. destruct (int_opt s) as [v|] eqn:E; [|reflexivity].
  now pose proof (int_opt_chars s v dquote E Hin eq_refl).
Qed.

(** ** Library parser: one record line *)

Lemma parse_record_fields (p0 p1 p2 p3 : str) (rest : list str) :
  parse_record (p0 :: p1 :: p2 :: p3 :: rest) =
  (sprite_idx <~ int p0 ;;
   width <~ int p2 ;;
   height <~ int p3 ;;
   Ok (Sprite sprite_idx (strip_char dquote p1) width height
              (trim_data rest (expected_data width height)))).
Proof. reflexivity. Qed.

Lemma five_fields (l : list str) :
  5 <= len l -> exists p0 p1 p2 p3 p4 rest, l = p0 :: p1 :: p2 :: p3 :: p4 :: rest.
Proof.
  unfold len. intros H.
  destruct l as [|p0 [|p1 [|p2 [|p3 [|p4 rest]]]]]; cbn [length] in H; try lia.
  now exists p0, p1, p2, p3, p4, rest.
Qed.

Lemma parse_record_never_index_error (l : list str) :
  5 <= len l -> parse_record l <> Raise IndexError.
Proof.
  intros H. destruct (five_fields l H) as (p0 & p1 & p2 & p3 & p4 & rest & ->).
  rewrite parse_record_fields. unfold int.
  destruct (int_opt p0); cbn [rbind]; [|discriminate].
  destruct (int_opt p2); cbn [rbind]; [|discriminate].
  destruct (int_opt p3); cbn [rbind]; discriminate.
Qed.


Lemma record_line_total (sprites : list sprite) (line_num : Z) (line : str) :
  exists evs sprites', record_line sprites line_num line = (evs, Ok sprites').
Proof.
  unfold record_line.
  destruct (is_empty (strip line)); [now exists [], sprites|].
  destruct (len (tokenize line) <? 5); [now eexists _, sprites|].
  destruct (parse_record (tokenize line)); now eexists _, _.
Qed.

Lemma records_loop_total (numbered : list (Z * str)) (sprites : list sprite) :
  exists evs sprites', records_loop numbered sprites = (evs, Ok sprites').
Proof.
  revert sprites. induction numbered as [|[n line] rest IH]; intros sprites;
    cbn [records_loop].
  - now exists [], sprites.
  - destruct (record_line_total sprites n line) as (evs & s1 & ->).
    destruct (IH s1) as (evs' & s2 & E). cbn [bind]. rewrite E.
    now exists (evs ++ evs'), s2.
Qed.

Lemma records_loop_app (a b : list (Z * str)) (sprites : list sprite) :
  records_loop (a ++ b) sprites =
  (s <- records_loop a sprites ;; records_loop b s).
Proof.
  revert sprites. induction a as [|[n line] rest IH]; intros sprites;
    cbn [records_loop app].
  - cbn [bind ret]. now destruct (records_loop b sprites).
  - destruct (record_line_total sprites n line) as (evs & s1 & ->).
    cbn [bind]. rewrite IH.
    destruct (records_loop_total rest s1) as (evs1 & s2 & ->). cbn [bind].
    destruct (records_loop b s2) as [evs2 r]. now rewrite app_assoc.
Qed.

(** ** Library parser: the header *)

Lemma doc_lines_header (content : str) :
  exists rest, doc_lines content = header_line content :: rest.
Proof.
  unfold header_line, doc_lines.
  destruct (split LF (strip content)) as [|l ls] eqn:E.
  - now apply split_nonempty in E.
  - now exists ls.
Qed.

Lemma parse_lbr_file_no_comma (content : str) :
  ~ In comma (header_line content) ->
  parse_lbr_file content = ([], Raise IndexError).
Proof.
  intros Hn. unfold parse_lbr_file.
  destruct (doc_lines_header content) as (rest & ->).
  change (getitem (header_line content :: rest) 0) with (Ok (header_line content)).
  cbn [bind lift].
  rewrite (split_no_sep comma _ Hn). reflexivity.
Qed.

Lemma parse_lbr_file_fields (content : str) (f0 f1 : str) (fs : list str) :
  split comma (header_line content) = f0 :: f1 :: fs ->
  parse_lbr_file content =
  match int_opt f1 with
  | None => ([], Raise ValueError)
  | Some n =>
      let loop := records_loop (enumerate (skipn 1 (doc_lines content)) 2) [] in
      ([Print (MsgLibrary (strip_char dquote f0)); Print (MsgSpriteCount n);
        Print MsgBlank] ++ events loop,
       match outcome loop with
       | Ok sprites => Ok (strip_char dquote f0, sprites)
       | Raise e => Raise e
       end)
  end.
Proof.
  intros Hs. unfold parse_lbr_file.
  destruct (doc_lines_header content) as (rest & E). rewrite E.
  change (getitem (header_line content :: rest) 0) with (Ok (header_line content)).
  cbn [bind lift]. rewrite Hs.
  change (getitem (f0 :: f1 :: fs) 0) with (Ok f0).
  change (getitem (f0 :: f1 :: fs) 1) with (Ok f1).
  cbn [bind lift]. unfold int.
  destruct (int_opt f1) as [n|]; [|reflexivity].
  cbv zeta.
  destruct (records_loop _ []) as [evs [sprites|e]];
    cbn [bind ret emit lift app events outcome fst snd];
    rewrite ?app_nil_r; reflexivity.
Qed.

Lemma In_existsb (c : ascii) (s : str) :
  In c s <-> existsb (Ascii.eqb c) s = true.
Proof.
  rewrite existsb_exists. split.
  - intros H. exists c. split; [exact H | apply Ascii.eqb_refl].
  - intros (x & Hx & E). apply Ascii.eqb_eq in E. now subst.
Qed.

Lemma not_In_existsb (c : ascii) (s : str) :
  existsb (Ascii.eqb c) s = false -> ~ In c s.
Proof. intros E H. apply In_existsb in H. congruence. Qed.

Lemma two_fields_iff_comma (s : str) : len (split comma s) < 2 <-> ~ In comma s.
Proof.
  split.
  - intros Hl Hin. destruct (split_with_sep comma s Hin) as (f0 & f1 & r & E).
    rewrite E in Hl. unfold len in Hl. cbn [length] in Hl. lia.
  - intros Hn. rewrite (split_no_sep comma s Hn). unfold len. cbn [length]. lia.
Qed.

(** C7: when the header line has fewer than two comma-delimited fields (it
    holds no comma) or its second field is not an integer literal, the parse of
    the library raises ([IndexError], [ValueError]) before anything is printed
    or parsed, so no sprite list is returned; otherwise the parse returns, the
    library name is field 0 with the surrounding quotes stripped, and the
    declared count is field 1 read as an integer. *)
Theorem header_failure_is_fatal (content : str) :
  let header := header_line content in
  let fields := split comma header in
  (len fields < 2 <-> ~ In comma header) /\
  (~ In comma header -> parse_lbr_file content = ([], Raise IndexError)) /\
  (In comma header -> int_opt (nth 1 fields []) = None ->
     parse_lbr_file content = ([], Raise ValueError)) /\
  (forall n, In comma header -> int_opt (nth 1 fields []) = Some n ->
     exists evs sprites,
       parse_lbr_file content =
       (Print (MsgLibrary (strip_char dquote (nth 0 fields []))) ::
        Print (MsgSpriteCount n) :: Print MsgBlank :: evs,
        Ok (strip_char dquote (nth 0 fields []), sprites))).
Proof.
  intros header fields.
  split; [apply two_fields_iff_comma|].
  split; [apply parse_lbr_file_no_comma|].
  split.
  - intros Hin Hint.
    destruct (split_with_sep comma header Hin) as (f0 & f1 & fs & E).
    rewrite (parse_lbr_file_fields content f0 f1 fs E).
    subst fields. rewrite E in Hint. cbn [nth] in Hint. now rewrite Hint.
  - intros n Hin Hint.
    destruct (split_with_sep comma header Hin) as (f0 & f1 & fs & E).
    rewrite (parse_lbr_file_fields content f0 f1 fs E).
    subst fields. rewrite E in Hint |- *. cbn [nth] in Hint |- *.
    rewrite Hint. cbv zeta.
    destruct (records_loop_total (enumerate (skipn 1 (doc_lines content)) 2) [])
      as (evs & sprites & ->).
    now exists evs, sprites.
Qed.

Lemma header_failure_is_fatal_witness :
  parse_lbr_file (lit "NoCount") = ([], Raise IndexError) /\
  parse_lbr_file (quoted "Lib" ++ lit ",two") = ([], Raise ValueError) /\
  exists evs sprites,
    parse_lbr_file sample_doc =
    (Print (MsgLibrary (lit "TestLib")) :: Print (MsgSpriteCount 2) ::
     Print MsgBlank :: evs,
     Ok (lit "TestLib", sprites)).
Proof.
  split; [|split].
  - apply (header_failure_is_fatal (lit "NoCount")).
    apply not_In_existsb. reflexivity.
  - apply (header_failure_is_fatal (quoted "Lib" ++ lit ",two")).
    + apply In_existsb. reflexivity.
    + reflexivity.
  - apply (header_failure_is_fatal sample_doc).
    + apply In_existsb. reflexivity.
    + reflexivity.
Defined.

(** The header ["A,3,B",7]: the name holds a comma, yet the second field of
    the comma split is the integer literal [3], and the parse returns a
    library named [A]. *)
Lemma header_with_numeric_name_segment :
  split comma (header_line (quoted "A,3,B" ++ lit ",7")) =
    [dquote :: lit "A"; lit "3"; lit "B" ++ [dquote]; lit "7"] /\
  parse_lbr_file (quoted "A,3,B" ++ lit ",7") =
    ([Print (MsgLibrary (lit "A")); Print (MsgSpriteCount 3); Print MsgBlank],
     Ok (lit "A", [])).
Proof. split; reflexivity. Qed.

(** C9, as the code has it: the header is split on every comma, quoted or
    not.  When the quoted library name holds exactly one comma, the second
    field is the rest of the name with its closing quote, and the parse
    raises [ValueError]; with more commas in the name the second field is the
    text between the first two commas, and the parse raises [ValueError]
    exactly when that text is not an integer literal; whatever the header, a
    parse that returns never returns a library name that holds a comma. *)
Theorem header_split_ignores_quotes :
  (forall content x y c,
      ~ In comma x -> ~ In comma y ->
      header_line content = dquote :: x ++ comma :: y ++ dquote :: comma :: c ->
      split comma (header_line content) =
        (dquote :: x) :: (y ++ [dquote]) :: split comma c /\
      parse_lbr_file content = ([], Raise ValueError)) /\
  (forall content x tail,
      ~ In comma x ->
      header_line content = dquote :: x ++ comma :: tail ->
      (parse_lbr_file content = ([], Raise ValueError) <->
       int_opt (hd [] (split comma tail)) = None)) /\
  (forall content name sprites,
      outcome (parse_lbr_file content) = Ok (name, sprites) -> ~ In comma name) /\
  parse_lbr_file (quoted "A,B" ++ lit ",3") = ([], Raise ValueError).
Proof.
  split; [|split; [|split; [|reflexivity]]].
  - intros content x y c Hx Hy Hh.
    assert (E : split comma (header_line content) =
                (dquote :: x) :: (y ++ [dquote]) :: split comma c).
    { rewrite Hh.
      change (dquote :: x ++ comma :: y ++ dquote :: comma :: c)
        with ((dquote :: x) ++ comma :: y ++ dquote :: comma :: c).
      rewrite split_app_sep.
      2:{ intros [H|H]; [discriminate | tauto]. }
      replace (y ++ dquote :: comma :: c) with ((y ++ [dquote]) ++ comma :: c)
        by (rewrite <- app_assoc; reflexivity).
      rewrite split_app_sep; [reflexivity|].
      intros H. apply in_app_or in H. destruct H as [H|[H|[]]];
        [tauto | discriminate]. }
    split; [exact E|].
    rewrite (parse_lbr_file_fields content _ _ _ E).
    rewrite int_opt_dquote; [reflexivity|].
    apply in_or_app. right. now left.
  - intros content x tail Hx Hh.
    assert (E : split comma (header_line content) = (dquote :: x) :: split comma tail).
    { rewrite Hh.
      change (dquote :: x ++ comma :: tail) with ((dquote :: x) ++ comma :: tail).
      apply split_app_sep. intros [H|H]; [discriminate | tauto]. }
    destruct (split comma tail) as [|f1 fs] eqn:Et.
    { now apply split_nonempty in Et. }
    rewrite (parse_lbr_file_fields content _ _ _ E). cbn [hd].
    destruct (int_opt f1) as [n|]; [|tauto]. cbv zeta.
    split; [|discriminate].
    destruct (records_loop_total (enumerate (skipn 1 (doc_lines content)) 2) [])
      as (evs & sprites & ->).
    discriminate.
  - intros content name sprites Hok Hin.
    destruct (In_dec ascii_dec comma (header_line content)) as [Hc|Hc].
    + destruct (split_with_sep comma _ Hc) as (f0 & f1 & fs & E).
      rewrite (parse_lbr_file_fields content f0 f1 fs E) in Hok.
      destruct (int_opt f1); [|discriminate]. cbv zeta in Hok.
      destruct (outcome (records_loop _ [])); [|discriminate].
      injection Hok as <- _.
      apply strip_with_In in Hin.
      pose proof (split_fields_no_sep comma (header_line content)) as Hf.
      rewrite E in Hf. inversion Hf. tauto.
    + rewrite (parse_lbr_file_no_comma content Hc) in Hok. discriminate.
Qed.

Lemma header_split_ignores_quotes_witness :
  parse_lbr_file (quoted "Mine,VGA" ++ lit ",12" ++ [LF] ++ sample_record) =
    ([], Raise ValueError).
Proof.
  apply (proj1 header_split_ignores_quotes _ (lit "Mine") (lit "VGA") (lit "12")).
  - apply not_In_existsb. reflexivity.
  - apply not_In_existsb. reflexivity.
  - reflexivity.
Defined.

(** ** Library parser: lines of the document *)





(** ** Library parser: bad record lines *)

Lemma parse_record_bad_field (p0 p1 p2 p3 : str) (rest : list str) :
  int_opt p0 = None \/ int_opt p2 = None \/ int_opt p3 = None ->
  parse_record (p0 :: p1 :: p2 :: p3 :: rest) = Raise ValueError.
Proof.
  intros H. rewrite parse_record_fields. unfold int.
  destruct (int_opt p0); cbn [rbind]; [|reflexivity].
  destruct (int_opt p2); cbn [rbind]; [|reflexivity].
  destruct (int_opt p3); cbn [rbind]; [|reflexivity].
  destruct H as [H|[H|H]]; discriminate.
Qed.

Lemma record_line_bad (sprites : list sprite) (line_num : Z) (line : str) :
  strip line <> [] ->
  len (tokenize line) < 5 \/
  (exists p0 p1 p2 p3 rest,
      tokenize line = p0 :: p1 :: p2 :: p3 :: rest /\
      (int_opt p0 = None \/ int_opt p2 = None \/ int_opt p3 = None)) ->
  exists d,
    record_line sprites line_num line = ([Print d], Ok sprites) /\
    (d = MsgTooFewParts line_num \/ d = MsgErrorParsing line_num ValueError).
Proof.
  intros Hnb Hbad. unfold record_line.
  destruct (strip line) as [|c r]; [congruence|]. cbn [is_empty].
  destruct (Z.ltb_spec (len (tokenize line)) 5) as [Hlt|Hge].
  - exists (MsgTooFewParts line_num). split; [reflexivity | now left].
  - destruct Hbad as [Hlt | (p0 & p1 & p2 & p3 & rest & E & Hint)]; [lia|].
    rewrite E, (parse_record_bad_field _ _ _ _ _ Hint).
    exists (MsgErrorParsing line_num ValueError). split; [reflexivity | now right].
Qed.

(** C6: a non-blank record line that tokenizes to fewer than five fields, or
    whose index, width or height field is not an integer literal, is skipped:
    it prints one diagnostic and leaves the sprite list as it was, so the
    sprites parsed from a document are those parsed without that line.  The
    record loop never raises.  The document with header ["TestLib",2], one
    well-formed record and one record of three fields gives the library name
    [TestLib], exactly one sprite and one diagnostic. *)
Theorem bad_record_line_is_skipped (sprites : list sprite) (line_num : Z)
    (line : str)
    (Hnb : strip line <> [])
    (Hbad : len (tokenize line) < 5 \/
            exists p0 p1 p2 p3 rest,
              tokenize line = p0 :: p1 :: p2 :: p3 :: rest /\
              (int_opt p0 = None \/ int_opt p2 = None \/ int_opt p3 = None)) :
  (exists d,
      record_line sprites line_num line = ([Print d], Ok sprites) /\
      (d = MsgTooFewParts line_num \/ d = MsgErrorParsing line_num ValueError)) /\
  (forall before after start,
      outcome (records_loop (before ++ (line_num, line) :: after) start) =
      outcome (records_loop (before ++ after) start)) /\
  (forall numbered start,
      exists evs sprites', records_loop numbered start = (evs, Ok sprites')) /\
  (exists sp,
      parse_lbr_file sample_doc =
      ([Print (MsgLibrary (lit "TestLib")); Print (MsgSpriteCount 2);
        Print MsgBlank; Print (MsgTooFewParts 3)],
       Ok (lit "TestLib", [sp])) /\
      sprite_name sp = lit "Rock").
Proof.
  split; [now apply record_line_bad|].
  split; [|split; [apply records_loop_total|]].
  - intros before after start.
    rewrite !records_loop_app.
    destruct (records_loop_total before start) as (evs & s1 & ->).
    cbn [bind records_loop].
    destruct (record_line_bad s1 line_num line Hnb Hbad) as (d & -> & _).
    cbn [bind].
    destruct (records_loop after s1) as [evs' r]. reflexivity.
  - eexists. split; reflexivity.
Qed.

Lemma bad_record_line_is_skipped_witness :
  outcome (records_loop [(2, sample_record); (3, lit "2,x,16,y,0")] []) =
  outcome (records_loop [(2, sample_record)] []).
Proof.
  assert (Hnb : strip (lit "2,x,16,y,0") <> []) by discriminate.
  assert (Hbad : len (tokenize (lit "2,x,16,y,0")) < 5 \/
            exists p0 p1 p2 p3 rest,
              tokenize (lit "2,x,16,y,0") = p0 :: p1 :: p2 :: p3 :: rest /\
              (int_opt p0 = None \/ int_opt p2 = None \/ int_opt p3 = None)).
  { right. exists (lit "2"), (lit "x"), (lit "16"), (lit "y"), [lit "0"].
    split; [reflexivity|]. right. right. reflexivity. }
  exact (proj1 (proj2 (bad_record_line_is_skipped [] 3 _ Hnb Hbad))
               [(2, sample_record)] [] []).
Defined.

(** ** Library parser: the expected data length *)

Lemma parse_record_inv (l : list str) (sp : sprite) :
  parse_record l = Ok sp ->
  exists p0 p1 p2 p3 rest idx w h,
    l = p0 :: p1 :: p2 :: p3 :: rest /\
    int_opt p0 = Some idx /\ int_opt p2 = Some w /\ int_opt p3 = Some h /\
    sp = Sprite idx (strip_char dquote p1) w h
                (trim_data rest (expected_data w h)).
Proof.
  intros H.
  destruct l as [|p0 [|p1 [|p2 [|p3 rest]]]].
  - discriminate.
  - unfold parse_record, int in H.
    change (getitem [p0] 0) with (Ok p0) in H. cbn [rbind] in H.
    destruct (int_opt p0); discriminate.
  - unfold parse_record, int in H.
    change (getitem [p0; p1] 0) with (Ok p0) in H. cbn [rbind] in H.
    destruct (int_opt p0); discriminate.
  - unfold parse_record, int in H.
    change (getitem [p0; p1; p2] 0) with (Ok p0) in H. cbn [rbind] in H.
    destruct (int_opt p0); [|discriminate]. cbn [rbind] in H.
    change (getitem [p0; p1; p2] 1) with (Ok p1) in H.
    change (getitem [p0; p1; p2] 2) with (Ok p2) in H. cbn [rbind] in H.
    destruct (int_opt p2); discriminate.
  - rewrite parse_record_fields in H. unfold int in H.
    destruct (int_opt p0) as [idx|] eqn:E0; [|discriminate]. cbn [rbind] in H.
    destruct (int_opt p2) as [w|] eqn:E2; [|discriminate]. cbn [rbind] in H.
    destruct (int_opt p3) as [h|] eqn:E3; [|discriminate]. cbn [rbind] in H.
    injection H as <-.
    now exists p0, p1, p2, p3, rest, idx, w, h.
Qed.

Lemma expected_data_narrow (width height : Z) :
  0 <= width < 16 -> expected_data width height = 4 * height.
Proof.
  intros Hw. unfold expected_data.
  rewrite (Z.div_small width 16) by lia. reflexivity.
Qed.

Lemma expected_data_wide (width height : Z) :
  width < 0 \/ 16 <= width ->
  expected_data width height = (width / 16) * 4 * height.
Proof.
  intros Hw. unfold expected_data.
  destruct (Z.eqb_spec (width / 16 * 4 * height) 0) as [E|E]; [|reflexivity].
  assert (Hq : width / 16 <> 0).
  { intros Hq. apply Z.div_small_iff in Hq; lia. }
  assert (height = 0) by nia. subst height. lia.
Qed.

Lemma trim_data_firstn (tokens : list str) (expected : Z) :
  0 <= expected -> trim_data tokens expected = firstn (Z.to_nat expected) tokens.
Proof.
  intros He. unfold trim_data, slice_to. rewrite Z.gtb_ltb.
  destruct (Z.ltb_spec expected (len tokens)) as [Hlt|Hge].
  - destruct (Z.ltb_spec expected 0); [lia|].
    now rewrite Z.min_l by lia.
  - symmetry. apply firstn_all2. unfold len in Hge. lia.
Qed.

Lemma trim_data_short (tokens : list str) (expected : Z) :
  len tokens <= expected -> trim_data tokens expected = tokens.
Proof.
  intros H. unfold trim_data. rewrite Z.gtb_ltb.
  destruct (Z.ltb_spec expected (len tokens)); [lia | reflexivity].
Qed.

Lemma trim_data_len (tokens : list str) (expected : Z) :
  0 <= expected -> len (trim_data tokens expected) <= expected.
Proof.
  intros He. rewrite trim_data_firstn by assumption.
  unfold len. pose proof (firstn_le_length (Z.to_nat expected) tokens).
  rewrite length_firstn. lia.
Qed.

(** C1: the parser misses the rule for a width that is not a multiple of 16.
    For the record [7,"Wide",35,1,1,...,10] the expected data length should
    be [4 * height = 4], as the rasterizer has it ([words_per_row] is 4 for
    this width, and the rasterizer decodes the row from the first four tokens
    only); the parser computes [(35 // 16) * 4 * 1 = 8] instead, with its
    only special case for a product of 0, and retains eight data tokens. *)
Theorem wide_record_keeps_eight_tokens :
  exists sp,
    record_line [] 2 wide_record = ([], Ok [sp]) /\
    sprite_width sp = 35 /\ sprite_height sp = 1 /\
    sprite_width sp mod 16 <> 0 /\
    words_per_row (sprite_width sp) = 4 /\
    expected_data (sprite_width sp) (sprite_height sp) = 8 /\
    sprite_data sp = map lit ["1"; "2"; "3"; "4"; "5"; "6"; "7"; "8"]%string /\
    ~ len (sprite_data sp) <= 4 * sprite_height sp /\
    parse_sprite_data (sprite_data sp) (sprite_width sp) (sprite_height sp) =
    parse_sprite_data (firstn 4 (sprite_data sp)) (sprite_width sp) (sprite_height sp).
Proof.
  eexists. split; [reflexivity|]. cbn [sprite_width sprite_height sprite_data].
  split; [reflexivity|]. split; [reflexivity|].
  split; [discriminate|].
  split; [reflexivity|]. split; [reflexivity|]. split; [reflexivity|].
  split; [|reflexivity].
  intros H. vm_compute in H. now apply H.
Qed.

(** ** Record tokenizer *)

Lemma tok_run_refines (line : str) (st : tok_state) :
  tok_fields (fold_left tok_char line st) =
  parts st ++ map strip (raw_fields (in_quotes st) (current st) line).
Proof.
  revert st. induction line as [|c rest IH]; intros st.
  - cbn [fold_left raw_fields]. unfold tok_fields.
    destruct (current st); cbn [map]; [now rewrite app_nil_r | reflexivity].
  - cbn [fold_left raw_fields]. rewrite IH. unfold tok_char.
    destruct (Ascii.eqb c dquote); [reflexivity|].
    destruct (in_quotes st) eqn:Eq; cbn [negb andb].
    + rewrite andb_false_r. cbn [parts in_quotes current]. reflexivity.
    + rewrite andb_true_r.
      destruct (Ascii.eqb c comma); cbn [parts in_quotes current map].
      * now rewrite <- app_assoc.
      * reflexivity.
Qed.

Lemma filter_dropwhile {A} (q p : A -> bool) (l : list A) :
  (forall a, q a = true -> p a = false) ->
  filter q (dropwhile p l) = filter q l.
Proof.
  intros Hqp. induction l as [|a r IH]; cbn [dropwhile filter]; [reflexivity|].
  destruct (p a) eqn:Ep; [|reflexivity].
  destruct (q a) eqn:Eq; [|exact IH].
  apply Hqp in Eq. congruence.
Qed.

Lemma filter_strip_with (q p : ascii -> bool) (s : str) :
  (forall a, q a = true -> p a = false) ->
  filter q (strip_with p s) = filter q s.
Proof.
  intros Hqp. unfold strip_with.
  rewrite filter_rev, filter_dropwhile, filter_rev, rev_involutive by assumption.
  now apply filter_dropwhile.
Qed.

Lemma quotes_strip (s : str) : quotes (strip s) = quotes s.
Proof.
  apply filter_strip_with. intros a Ha.
  apply Ascii.eqb_eq in Ha. now subst a.
Qed.

Lemma quotes_raw_fields (inside : bool) (acc line : str) :
  quotes (concat (raw_fields inside acc line)) = quotes (acc ++ line).
Proof.
  unfold quotes. revert inside acc.
  induction line as [|c rest IH]; intros inside acc; cbn [raw_fields].
  - destruct acc; cbn [concat]; now rewrite ?app_nil_r.
  - destruct (Ascii.eqb_spec c dquote) as [->|Hq].
    + rewrite IH, <- app_assoc. reflexivity.
    + destruct inside.
      * rewrite IH, <- app_assoc. reflexivity.
      * destruct (Ascii.eqb_spec c comma) as [->|Hc].
        -- cbn [concat]. rewrite !filter_app, (IH false []).
           cbn [app filter]. reflexivity.
        -- rewrite IH, <- app_assoc. reflexivity.
Qed.

Lemma quotes_map_strip (fields : list str) :
  quotes (concat (map strip fields)) = quotes (concat fields).
Proof.
  induction fields as [|f fs IH]; cbn [map concat]; [reflexivity|].
  unfold quotes in *. rewrite !filter_app, IH.
  f_equal. apply quotes_strip.
Qed.

(** C5: the tokenizer is total, and its fields are those of one
    left-to-right pass that toggles the inside-quotes flag on every quote
    character, cuts at a comma only when the flag is false, and emits the
    last accumulator when it is not empty, each field being stripped of the
    whitespace around it afterwards; the quote characters stay in the fields;
    unbalanced quotes raise nothing, the flag keeps its last state. *)
Theorem tokenizer_is_quote_aware_split (line : str) :
  tokenize line = map strip (raw_fields false [] line) /\
  quotes (concat (tokenize line)) = quotes line /\
  tokenize (lit "1, a b ,-3") = map lit ["1"; "a b"; "-3"]%string /\
  tokenize (lit "a,") = [lit "a"] /\
  tokenize (lit "a, ") = [lit "a"; []] /\
  tokenize (lit "1," ++ quoted "x,y" ++ lit ",2") =
    [lit "1"; quoted "x,y"; lit "2"] /\
  tokenize (lit "1," ++ dquote :: lit "x,y") = [lit "1"; dquote :: lit "x,y"] /\
  in_quotes (tok_run (lit "1," ++ dquote :: lit "x,y")) = true.
Proof.
  assert (E : tokenize line = map strip (raw_fields false [] line))
    by apply (tok_run_refines line (TokState [] false [])).
  split; [exact E|].
  split; [|repeat split; reflexivity].
  rewrite E, quotes_map_strip. apply (quotes_raw_fields false [] line).
Qed.

(** ** Data tokens are not validated by the parser *)

Lemma record_line_accepts (sprites : list sprite) (line_num : Z) (line : str)
    (p0 p1 p2 p3 p4 : str) (rest : list str) (idx w h : Z) :
  strip line <> [] ->
  tokenize line = p0 :: p1 :: p2 :: p3 :: p4 :: rest ->
  int_opt p0 = Some idx -> int_opt p2 = Some w -> int_opt p3 = Some h ->
  record_line sprites line_num line =
  ([], Ok (sprites ++ [Sprite idx (strip_char dquote p1) w h
                              (trim_data (p4 :: rest) (expected_data w h))])).
Proof.
  intros Hnb Htok E0 E2 E3. unfold record_line.
  destruct (strip line); [congruence|]. cbn [is_empty].
  rewrite Htok.
  destruct (Z.ltb_spec (len (p0 :: p1 :: p2 :: p3 :: p4 :: rest)) 5) as [Hlt|_].
  { unfold len in Hlt. cbn [length] in Hlt. lia. }
  rewrite parse_record_fields. unfold int. rewrite E0, E2, E3. reflexivity.
Qed.

(** C10: the parser does not look at the data tokens: a record line whose
    index, width and height are integer literals is added to the sprite list
    whatever its data fields hold; the rasterizer raises [ValueError] when a
    token that is not an integer literal is among the four words of a row
    that is fully available, and nothing around the call in [main] catches
    it. *)
Theorem data_tokens_are_not_validated :
  (forall sprites line_num line p0 p1 p2 p3 p4 rest idx w h,
      strip line <> [] ->
      tokenize line = p0 :: p1 :: p2 :: p3 :: p4 :: rest ->
      int_opt p0 = Some idx -> int_opt p2 = Some w -> int_opt p3 = Some h ->
      record_line sprites line_num line =
      ([], Ok (sprites ++ [Sprite idx (strip_char dquote p1) w h
                                  (trim_data (p4 :: rest) (expected_data w h))]))) /\
  (forall data_values width height row p tok,
      0 <= row < height -> 4 * row + 4 <= len data_values -> 0 <= p < 4 ->
      nth_error data_values (Z.to_nat (4 * row + p)) = Some tok ->
      int_opt tok = None ->
      outcome (parse_sprite_data data_values width height) = Raise ValueError) /\
  (exists sp,
      outcome (parse_lbr_file garbled_doc) = Ok (lit "TestLib", [sp]) /\
      sprite_data sp = map lit ["1"; "oops"; "3"; "4"]%string /\
      outcome (rasterize_all [sp]) = Raise ValueError).
Proof.
  split; [|split].
  - intros sprites line_num line p0 p1 p2 p3 p4 rest idx w h Hnb Htok E0 E2 E3.
    now apply (record_line_accepts sprites line_num line p0 p1 p2 p3 p4 rest).
  - intros. now apply (rasterizer_bad_token data_values width height row p tok).
  - eexists. split; [reflexivity|]. split; reflexivity.
Qed.

Lemma data_tokens_are_not_validated_witness :
  outcome (parse_sprite_data (map lit ["1"; "2"; "3"; "4"; "5"; "6"; "x"; "8"]%string)
                             16 2) = Raise ValueError.
Proof.
  apply (proj1 (proj2 data_tokens_are_not_validated)
               (map lit ["1"; "2"; "3"; "4"; "5"; "6"; "x"; "8"]%string)
               16 2 1 2 (lit "x")).
  - lia.
  - unfold len. cbn [map length]. lia.
  - lia.
  - reflexivity.
  - reflexivity.
Defined.

(** * Further properties of the decoder and the rasterizer *)

Lemma testbit_low16 (a k : Z) :
  0 <= k < 16 -> Z.testbit (a mod 65536) k = Z.testbit a k.
Proof.
  intros Hk. change 65536 with (2 ^ 16).
  apply Z.mod_pow2_bits_low. lia.
Qed.

Lemma signed_to_unsigned_16_congr (val : Z) :
  signed_to_unsigned_16 val mod 65536 = val mod 65536.
Proof.
  unfold signed_to_unsigned_16. destruct (val <? 0); [|reflexivity].
  replace (val + 65536) with (val + 1 * 65536) by lia.
  apply Z_mod_plus_full.
Qed.

Lemma extract_bits16_low (a b : Z) :
  a mod 65536 = b mod 65536 -> extract_bits16 a = extract_bits16 b.
Proof.
  intros E. rewrite !extract_bits16_unfold.
  apply map_ext_in. intros k Hk.
  assert (0 <= k < 16).
  { cbn [In] in Hk. lia. }
  now rewrite <- (testbit_low16 a), <- (testbit_low16 b), E by assumption.
Qed.

(** X1: a plane value of any size is decoded without error, and only its low
    16 bits count: the decoding of [signed_to_unsigned_16 val] is the decoding
    of [val mod 65536], whatever the integer [val]. *)
Theorem decoder_wraps_out_of_range_words (val : Z) :
  extract_bits (signed_to_unsigned_16 val) 16 = extract_bits (val mod 65536) 16 /\
  length (extract_bits (signed_to_unsigned_16 val) 16) = 16%nat /\
  Forall (fun b => b = 0 \/ b = 1) (extract_bits (signed_to_unsigned_16 val) 16).
Proof.
  change (extract_bits (signed_to_unsigned_16 val) 16)
    with (extract_bits16 (signed_to_unsigned_16 val)).
  split; [|split].
  - apply extract_bits16_low.
    rewrite signed_to_unsigned_16_congr. symmetry. apply Z.mod_mod. lia.
  - apply extract_bits16_length.
  - rewrite extract_bits16_unfold. apply Forall_forall. intros b Hb.
    apply in_map_iff in Hb. destruct Hb as (k & <- & _).
    destruct (Z.testbit _ k); cbn [Z.b2z]; lia.
Qed.

Lemma bit_step (u k c c2 : Z) :
  0 <= k -> c = 2 ^ k -> c2 = 2 * c ->
  u / c = 2 * (u / c2) + Z.b2z (Z.testbit u k).
Proof.
  intros Hk -> ->.
  rewrite Z.testbit_spec' by assumption.
  assert (Hpos : 0 < 2 ^ k) by (apply Z.pow_pos_nonneg; lia).
  rewrite (Z.mul_comm 2 (2 ^ k)), <- Z.div_div by lia.
  apply Z.div_mod. lia.
Qed.

Lemma pack_extract (u : Z) :
  0 <= u < 65536 -> pack_bits (extract_bits u 16) = u.
Proof.
  intros Hu.
  change (extract_bits u 16) with (extract_bits16 u).
  rewrite extract_bits16_unfold.
  unfold pack_bits, slice. cbn [map skipn firstn app fold_left].
  pose proof (bit_step u 0 1 2 ltac:(lia) eq_refl eq_refl) as H0.
  pose proof (bit_step u 1 2 4 ltac:(lia) eq_refl eq_refl) as H1.
  pose proof (bit_step u 2 4 8 ltac:(lia) eq_refl eq_refl) as H2.
  pose proof (bit_step u 3 8 16 ltac:(lia) eq_refl eq_refl) as H3.
  pose proof (bit_step u 4 16 32 ltac:(lia) eq_refl eq_refl) as H4.
  pose proof (bit_step u 5 32 64 ltac:(lia) eq_refl eq_refl) as H5.
  pose proof (bit_step u 6 64 128 ltac:(lia) eq_refl eq_refl) as H6.
  pose proof (bit_step u 7 128 256 ltac:(lia) eq_refl eq_refl) as H7.
  pose proof (bit_step u 8 256 512 ltac:(lia) eq_refl eq_refl) as H8.
  pose proof (bit_step u 9 512 1024 ltac:(lia) eq_refl eq_refl) as H9.
  pose proof (bit_step u 10 1024 2048 ltac:(lia) eq_refl eq_refl) as H10.
  pose proof (bit_step u 11 2048 4096 ltac:(lia) eq_refl eq_refl) as H11.
  pose proof (bit_step u 12 4096 8192 ltac:(lia) eq_refl eq_refl) as H12.
  pose proof (bit_step u 13 8192 16384 ltac:(lia) eq_refl eq_refl) as H13.
  pose proof (bit_step u 14 16384 32768 ltac:(lia) eq_refl eq_refl) as H14.
  pose proof (bit_step u 15 32768 65536 ltac:(lia) eq_refl eq_refl) as H15.
  rewrite Z.div_1_r in H0.
  rewrite (Z.div_small u 65536) in H15 by lia.
  generalize dependent (u / 2). generalize dependent (u / 4).
  generalize dependent (u / 8). generalize dependent (u / 16).
  generalize dependent (u / 32). generalize dependent (u / 64).
  generalize dependent (u / 128). generalize dependent (u / 256).
  generalize dependent (u / 512). generalize dependent (u / 1024).
  generalize dependent (u / 2048). generalize dependent (u / 4096).
  generalize dependent (u / 8192). generalize dependent (u / 16384).
  generalize dependent (u / 32768).
  intros. lia.
Qed.

(** X2: decoding loses nothing: for a signed 16-bit word [v], packing the
    sixteen decoded bits (halves swapped back, most significant bit first)
    gives the unsigned value of [v] again, so two different signed 16-bit
    words never decode to the same pixel bits. *)
Theorem decoder_round_trip (v v' : Z)
    (Hv : -32768 <= v < 32768) (Hv' : -32768 <= v' < 32768) :
  pack_bits (extract_bits (signed_to_unsigned_16 v) 16) = v mod 65536 /\
  (extract_bits (signed_to_unsigned_16 v) 16 =
   extract_bits (signed_to_unsigned_16 v') 16 -> v = v').
Proof.
  assert (P : forall w, -32768 <= w < 32768 ->
                pack_bits (extract_bits (signed_to_unsigned_16 w) 16) = w mod 65536).
  { intros w Hw. rewrite pack_extract.
    - now apply signed_to_unsigned_16_mod.
    - rewrite signed_to_unsigned_16_mod by assumption.
      apply Z.mod_pos_bound. lia. }
  split; [now apply P|].
  intros E. apply (f_equal pack_bits) in E. rewrite !P in E by assumption.
  rewrite <- !signed_to_unsigned_16_mod in E by assumption.
  unfold signed_to_unsigned_16 in E.
  destruct (Z.ltb_spec v 0), (Z.ltb_spec v' 0); lia.
Qed.

Lemma decoder_round_trip_witness :
  pack_bits (extract_bits (signed_to_unsigned_16 (-256)) 16) = (-256) mod 65536.
Proof.
  apply (decoder_round_trip (-256) 7); lia.
Defined.

(** ** The rasterizer on arbitrary data *)

Lemma read_planes_agree (d d' : list str) (idx : Z) (ps acc : list Z) :
  (forall p, In p ps -> getitem d (idx + p) = getitem d' (idx + p)) ->
  read_planes d idx ps acc = read_planes d' idx ps acc.
Proof.
  revert acc. induction ps as [|p ps IH]; intros acc H; cbn [read_planes];
    [reflexivity|].
  rewrite !read_data_eq, (H p) by now left.
  destruct (getitem d' (idx + p)) as [tok|e]; cbn [bind]; [|reflexivity].
  destruct (int tok) as [val|e]; cbn [bind lift]; [|reflexivity].
  rewrite IH; [reflexivity|]. intros q Hq. apply H. now right.
Qed.

Lemma len_firstn {A} (n : nat) (l : list A) :
  len (firstn n l) = Z.min (Z.of_nat n) (len l).
Proof. unfold len. rewrite length_firstn. lia. Qed.

Lemma getitem_firstn {A} (n : nat) (l : list A) (i : Z) :
  0 <= i < Z.of_nat n -> getitem (firstn n l) i = getitem l i.
Proof.
  intros Hi. unfold getitem.
  destruct (Z.ltb_spec i 0); [lia|].
  destruct (Z.ltb_spec i 0); [lia|].
  rewrite nth_error_firstn.
  destruct (Nat.ltb_spec (Z.to_nat i) n); [reflexivity | lia].
Qed.

Lemma row_planes_firstn (data_values : list str) (height : Z) (n : nat) (r : Z) :
  cut_keeps_rows data_values height n -> 0 <= r < height ->
  row_planes data_values (4 * r) r = row_planes (firstn n data_values) (4 * r) r.
Proof.
  intros Hcut Hr. unfold row_planes. rewrite !Z.gtb_ltb, len_firstn.
  specialize (Hcut r Hr).
  destruct (Z.ltb_spec (len data_values) (4 * r + 4));
    destruct (Z.ltb_spec (Z.min (Z.of_nat n) (len data_values)) (4 * r + 4));
    try lia; [reflexivity|].
  change (range 4) with [0; 1; 2; 3].
  apply read_planes_agree. cbn [In]. intros p Hp.
  symmetry. apply getitem_firstn. lia.
Qed.

Lemma rows_loop_agree (d d' : list str) (width : Z) :
  forall (m k : nat) (acc : list (list Z)),
    (forall r, Z.of_nat k <= r < Z.of_nat k + Z.of_nat m ->
               row_planes d (4 * r) r = row_planes d' (4 * r) r) ->
    rows_loop d width (map Z.of_nat (seq k m)) (4 * Z.of_nat k) acc =
    rows_loop d' width (map Z.of_nat (seq k m)) (4 * Z.of_nat k) acc.
Proof.
  induction m as [|m IH]; intros k acc H; cbn [seq map rows_loop]; [reflexivity|].
  rewrite (H (Z.of_nat k)) by lia.
  destruct (row_planes d' (4 * Z.of_nat k) (Z.of_nat k)) as [evs [vals|e]];
    cbn [bind]; [|reflexivity].
  destruct (row_loop (map extract_bits16 vals) (range width) []) as [rp|e];
    cbn [bind lift]; [|reflexivity].
  replace (4 * Z.of_nat k + 4) with (4 * Z.of_nat (S k)) by lia.
  rewrite IH; [reflexivity|]. intros r Hr. apply H. lia.
Qed.

Lemma parse_sprite_data_firstn (data_values : list str) (width height : Z) (n : nat) :
  cut_keeps_rows data_values height n ->
  parse_sprite_data data_values width height =
  parse_sprite_data (firstn n data_values) width height.
Proof.
  intros Hcut. unfold parse_sprite_data, range.
  apply (rows_loop_agree data_values (firstn n data_values) width
           (Z.to_nat height) 0%nat []).
  intros r Hr. apply (row_planes_firstn data_values height); [exact Hcut | lia].
Qed.

(** X3: tokens past the first [4 * height] are never used: the rasterizer
    gives the same result and reads and prints the same on the data cut to
    its first [4 * height] tokens, whatever the surplus tokens hold. *)
Theorem rasterizer_ignores_surplus_tokens (data_values : list str)
    (width height : Z) :
  parse_sprite_data data_values width height =
  parse_sprite_data (firstn (Z.to_nat (4 * height)) data_values) width height.
Proof.
  apply parse_sprite_data_firstn. intros r Hr Hav. lia.
Qed.

Lemma forallb_false_witness {A} (f : A -> bool) (l : list A) :
  forallb f l = false -> exists i a, nth_error l i = Some a /\ f a = false.
Proof.
  induction l as [|b r IH]; cbn [forallb]; [discriminate|].
  destruct (f b) eqn:Eb; cbn [andb].
  - intros H. destruct (IH H) as (i & a & Hi & Ha). now exists (S i), a.
  - intros _. now exists 0%nat, b.
Qed.

Lemma grid_of_firstn (data_values : list str) (width height : Z) (n : nat) :
  cut_keeps_rows data_values height n ->
  grid_of (firstn n data_values) width height = grid_of data_values width height.
Proof.
  intros Hcut. unfold grid_of. apply map_ext_in. intros r Hr.
  apply range_nonneg in Hr. f_equal. f_equal.
  unfold row_words, row_available. rewrite len_firstn.
  specialize (Hcut r Hr).
  destruct (Z.leb_spec (4 * r + 4) (len data_values));
    destruct (Z.leb_spec (4 * r + 4) (Z.min (Z.of_nat n) (len data_values)));
    try lia; [|reflexivity].
  apply map_ext_in. cbn [In]. intros p Hp.
  unfold plane_word. rewrite getitem_firstn by lia. reflexivity.
Qed.

Lemma used_tokens_cut (data_values : list str) (height : Z) :
  cut_keeps_rows data_values height
    (Z.to_nat (4 * Z.min height (len data_values / 4))).
Proof.
  intros r Hr Hav.
  assert (r + 1 <= len data_values / 4) by (apply Z.div_le_lower_bound; lia).
  lia.
Qed.

Lemma parse_sprite_data_outcome (data_values : list str) (width height : Z) :
  outcome (parse_sprite_data data_values width height) =
  if forallb is_numeric (used_tokens data_values height)
  then Ok (grid_of data_values width height)
  else Raise ValueError.
Proof.
  pose proof (used_tokens_cut data_values height) as Hcut.
  destruct (forallb is_numeric (used_tokens data_values height)) eqn:E.
  - rewrite (parse_sprite_data_firstn _ _ _ _ Hcut).
    rewrite parse_sprite_data_ok by exact E.
    cbn [outcome snd]. f_equal. now apply grid_of_firstn.
  - apply forallb_false_witness in E. destruct E as (i & tok & Hi & Hbad).
    unfold used_tokens in Hi. rewrite nth_error_firstn in Hi.
    destruct (Nat.ltb_spec i (Z.to_nat (4 * Z.min height (len data_values / 4))))
      as [Hlt|]; [|discriminate].
    assert (Hlen : 4 * (len data_values / 4) <= len data_values)
      by (apply Z.mul_div_le; lia).
    pose proof (Z.div_mod (Z.of_nat i) 4 ltac:(lia)) as Hdm.
    pose proof (Z.mod_pos_bound (Z.of_nat i) 4 ltac:(lia)) as Hm.
    apply (rasterizer_bad_token data_values width height
             (Z.of_nat i / 4) (Z.of_nat i mod 4) tok).
    + split; [apply Z.div_pos; lia|].
      apply Z.div_lt_upper_bound; lia.
    + assert (Z.of_nat i / 4 < Z.min height (len data_values / 4))
        by (apply Z.div_lt_upper_bound; lia).
      lia.
    + exact Hm.
    + rewrite <- Hdm, Nat2Z.id. exact Hi.
    + unfold is_numeric in Hbad. now destruct (int_opt tok).
Qed.

(** X4: the rasterizer fails exactly when one of the tokens it converts (the
    tokens of the rows below [height] whose four words are all present) is not
    an integer literal, and then with [ValueError]; otherwise it returns the
    grid.  It never raises [IndexError]. *)
Theorem rasterizer_fails_exactly_on_bad_used_token (data_values : list str)
    (width height : Z) :
  (forallb is_numeric (used_tokens data_values height) = true <->
   exists grid, outcome (parse_sprite_data data_values width height) = Ok grid) /\
  (forallb is_numeric (used_tokens data_values height) = false <->
   outcome (parse_sprite_data data_values width height) = Raise ValueError) /\
  outcome (parse_sprite_data data_values width height) <> Raise IndexError.
Proof.
  rewrite parse_sprite_data_outcome.
  destruct (forallb is_numeric (used_tokens data_values height)).
  - split; [|split]; [split | split |]; try discriminate; try reflexivity.
    + intros _. eexists. reflexivity.
  - split; [|split]; [split | split |]; try discriminate; try reflexivity.
    + intros (grid & H). discriminate.
Qed.

Lemma grid_of_rows (data_values : list str) (width height : Z) :
  Forall (fun row_pixels =>
            length row_pixels = Z.to_nat width /\
            Forall (fun color => 0 <= color <= 15) row_pixels)
         (grid_of data_values width height).
Proof.
  unfold grid_of. apply Forall_forall. intros rp Hrp.
  apply in_map_iff in Hrp. destruct Hrp as (row & <- & _). split.
  - now rewrite length_map, range_length.
  - apply Forall_forall. intros c Hc. apply in_map_iff in Hc.
    destruct Hc as (x & <- & _). apply color_at_range.
Qed.

Lemma parse_sprite_data_returns (data_values : list str) (width height : Z)
    (grid : list (list Z)) :
  outcome (parse_sprite_data data_values width height) = Ok grid ->
  grid = grid_of data_values width height.
Proof.
  rewrite parse_sprite_data_outcome.
  destruct (forallb is_numeric (used_tokens data_values height)); congruence.
Qed.

(** X5: whatever the data, the width and the height (zero and negative ones
    included), a grid the rasterizer returns is rectangular: it has
    [max 0 height] rows of [max 0 width] color indices each, all in [0, 15]. *)
Theorem rasterizer_grid_is_rectangular (data_values : list str) (width height : Z)
    (grid : list (list Z))
    (Hok : outcome (parse_sprite_data data_values width height) = Ok grid) :
  len grid = Z.max 0 height /\
  Forall (fun row_pixels =>
            len row_pixels = Z.max 0 width /\
            Forall (fun color => 0 <= color <= 15) row_pixels) grid.
Proof.
  apply parse_sprite_data_returns in Hok. subst grid. split.
  - unfold len. rewrite grid_of_length. lia.
  - eapply Forall_impl; [|apply grid_of_rows].
    intros rp [Hl Hc]. split; [|exact Hc]. unfold len. rewrite Hl. lia.
Qed.

Lemma rasterizer_grid_is_rectangular_witness :
  len (grid_of (map lit ["1"; "2"; "x"]%string) 35 2) = Z.max 0 2.
Proof.
  apply (rasterizer_grid_is_rectangular (map lit ["1"; "2"; "x"]%string) 35 2).
  reflexivity.
Defined.

(** ** Pixel bits and plane bits *)

Lemma decoded_bit_testbit (word x : Z) :
  0 <= x < 16 -> decoded_bit word x = Z.b2z (Z.testbit word (bit_index x)).
Proof.
  intros Hx. unfold decoded_bit.
  change (extract_bits word 16) with (extract_bits16 word).
  rewrite extract_bits16_unfold.
  assert (Hc : x = 0 \/ x = 1 \/ x = 2 \/ x = 3 \/ x = 4 \/ x = 5 \/ x = 6 \/
               x = 7 \/ x = 8 \/ x = 9 \/ x = 10 \/ x = 11 \/ x = 12 \/
               x = 13 \/ x = 14 \/ x = 15) by lia.
  repeat (destruct Hc as [-> | Hc]; [reflexivity|]).
  subst x. reflexivity.
Qed.

Lemma testbit_signed_to_unsigned_16 (val k : Z) :
  0 <= k < 16 -> Z.testbit (signed_to_unsigned_16 val) k = Z.testbit val k.
Proof.
  intros Hk.
  rewrite <- (testbit_low16 (signed_to_unsigned_16 val)), <- (testbit_low16 val)
    by assumption.
  now rewrite signed_to_unsigned_16_congr.
Qed.

Lemma testbit_combine_planes (a b c d : bool) (p : nat) :
  (p < 4)%nat ->
  Z.testbit (combine_planes (Z.b2z a) (Z.b2z b) (Z.b2z c) (Z.b2z d)) (Z.of_nat p) =
  nth p [a; b; c; d] false.
Proof.
  intros Hp.
  do 4 (destruct p as [|p]; [destruct a, b, c, d; reflexivity|]). lia.
Qed.

(** X6: in a returned grid, for a row whose four words are present and a
    column [x < 16], bit [p] of the pixel's color is bit [7 - x] (for [x < 8])
    or [23 - x] (for [x >= 8]) of the row's [p]-th word, read in two's
    complement. *)
Theorem pixel_bit_is_plane_bit (data_values : list str) (width height : Z)
    (grid : list (list Z)) (row x : Z) (t0 t1 t2 t3 : str) (v0 v1 v2 v3 : Z)
    (p : nat)
    (Hok : outcome (parse_sprite_data data_values width height) = Ok grid)
    (Hrow : 0 <= row < height) (Hx : 0 <= x < width) (Hx16 : x < 16)
    (Hcur : firstn 4 (skipn (Z.to_nat (4 * row)) data_values) = [t0; t1; t2; t3])
    (Hint : map int_opt [t0; t1; t2; t3] = [Some v0; Some v1; Some v2; Some v3])
    (Hp : (p < 4)%nat) :
  Z.testbit (nth (Z.to_nat x) (nth (Z.to_nat row) grid []) 0) (Z.of_nat p) =
  Z.testbit (nth p [v0; v1; v2; v3] 0) (if x <? 8 then 7 - x else 23 - x).
Proof.
  apply parse_sprite_data_returns in Hok. subst grid.
  rewrite grid_of_pixel by assumption.
  injection Hint as E0 E1 E2 E3.
  destruct (cursor_words data_values row t0 t1 t2 t3 ltac:(lia) Hcur)
    as (Hav & G0 & G1 & G2 & G3).
  unfold row_words, row_available.
  destruct (Z.leb_spec (4 * row + 4) (len data_values)); [|lia].
  cbn [map].
  rewrite (plane_word_of _ _ _ _ G0 E0), (plane_word_of _ _ _ _ G1 E1),
          (plane_word_of _ _ _ _ G2 E2), (plane_word_of _ _ _ _ G3 E3).
  unfold color_at. destruct (Z.ltb_spec x 16); [|lia]. cbn [nth].
  rewrite !decoded_bit_testbit by lia.
  rewrite testbit_combine_planes by assumption.
  fold (bit_index x).
  assert (Hb : 0 <= bit_index x < 16).
  { unfold bit_index. destruct (Z.ltb_spec x 8); lia. }
  rewrite !testbit_signed_to_unsigned_16 by assumption.
  do 4 (destruct p as [|p]; [reflexivity|]). lia.
Qed.

Lemma pixel_bit_is_plane_bit_witness :
  Z.testbit (nth 9 (nth 0 (grid_of (map lit ["-1"; "0"; "255"; "-256"]%string) 16 1) []) 0)
            (Z.of_nat 3) =
  Z.testbit (-256) (23 - 9).
Proof.
  apply (pixel_bit_is_plane_bit (map lit ["-1"; "0"; "255"; "-256"]%string) 16 1
           _ 0 9 (lit "-1") (lit "0") (lit "255") (lit "-256")
           (-1) 0 255 (-256) 3);
    try reflexivity; lia.
Defined.

(** * Further properties of the parser *)

Lemma drop_last_empty_cons (f : str) (fs : list str) :
  fs <> [] -> drop_last_empty (f :: fs) = f :: drop_last_empty fs.
Proof. destruct fs; [congruence | reflexivity]. Qed.

Lemma raw_fields_no_quote (acc line : str) :
  ~ In dquote line ->
  raw_fields false acc line =
  drop_last_empty (match split comma line with
                   | f :: fs => (acc ++ f) :: fs
                   | [] => []
                   end).
Proof.
  revert acc. induction line as [|c rest IH]; intros acc Hq.
  - cbn [raw_fields split drop_last_empty]. rewrite app_nil_r.
    now destruct acc.
  - assert (Hrest : ~ In dquote rest) by (intros H; apply Hq; now right).
    cbn [raw_fields split].
    destruct (Ascii.eqb_spec c dquote) as [->|_].
    { exfalso. apply Hq. now left. }
    destruct (Ascii.eqb_spec c comma) as [->|_].
    + rewrite app_nil_r, (IH [] Hrest).
      destruct (split comma rest) as [|f fs] eqn:E.
      { now apply split_nonempty in E. }
      cbn [app]. symmetry. apply drop_last_empty_cons. discriminate.
    + rewrite (IH (acc ++ [c]) Hrest).
      destruct (split comma rest) as [|f fs] eqn:E.
      { now apply split_nonempty in E. }
      now rewrite <- app_assoc.
Qed.

(** X7: on a line without quote characters the tokenizer is the plain comma
    split, each field stripped, except that an empty last field (a line that
    is empty or ends with a comma) is dropped; empty fields elsewhere are
    kept. *)
Theorem tokenizer_without_quotes_is_split (line : str)
    (Hq : ~ In dquote line) :
  tokenize line = map strip (drop_last_empty (split comma line)).
Proof.
  pose proof (tok_run_refines line (TokState [] false [])) as E.
  cbn [parts in_quotes current app] in E.
  change (tok_fields (fold_left tok_char line (TokState [] false [])))
    with (tokenize line) in E.
  rewrite E, raw_fields_no_quote by assumption.
  destruct (split comma line); reflexivity.
Qed.

Lemma tokenizer_without_quotes_is_split_witness :
  tokenize (lit "1,,16 , 24,") = map lit ["1"; ""; "16"; "24"]%string.
Proof.
  rewrite (tokenizer_without_quotes_is_split (lit "1,,16 , 24,")).
  - reflexivity.
  - apply not_In_existsb. reflexivity.
Defined.

(** X8: the sprite count of the header is only printed: two documents whose
    headers have the same first field and an integer second field, and whose
    record lines are the same, give the same library name and the same
    sprites, whatever the two counts are. *)
Theorem declared_count_is_advisory (content content' : str) (h h' : str)
    (records : list str) (f0 f1 f1' : str) (fs fs' : list str) (n n' : Z)
    (Hdoc : doc_lines content = h :: records)
    (Hdoc' : doc_lines content' = h' :: records)
    (Hh : split comma h = f0 :: f1 :: fs)
    (Hh' : split comma h' = f0 :: f1' :: fs')
    (Hn : int_opt f1 = Some n) (Hn' : int_opt f1' = Some n') :
  outcome (parse_lbr_file content) = outcome (parse_lbr_file content').
Proof.
  assert (E : header_line content = h) by (unfold header_line; now rewrite Hdoc).
  assert (E' : header_line content' = h') by (unfold header_line; now rewrite Hdoc').
  rewrite <- E in Hh. rewrite <- E' in Hh'.
  rewrite (parse_lbr_file_fields content _ _ _ Hh),
          (parse_lbr_file_fields content' _ _ _ Hh').
  rewrite Hn, Hn', Hdoc, Hdoc'. reflexivity.
Qed.

Lemma declared_count_is_advisory_witness :
  outcome (parse_lbr_file
             (join_lines [quoted "TestLib" ++ lit ",2"; sample_record])) =
  outcome (parse_lbr_file
             (join_lines [quoted "TestLib" ++ lit ",-7,x"; sample_record])).
Proof.
  apply (declared_count_is_advisory _ _
           (quoted "TestLib" ++ lit ",2") (quoted "TestLib" ++ lit ",-7,x")
           [sample_record] (quoted "TestLib") (lit "2") (lit "-7")
           [] [lit "x"] 2 (-7));
    reflexivity.
Defined.

Lemma record_line_appends (line_num : Z) (line : str) :
  exists evs added,
    (length added <= 1)%nat /\
    forall sprites,
      record_line sprites line_num line = (evs, Ok (sprites ++ added)).
Proof.
  unfold record_line.
  destruct (is_empty (strip line)).
  { exists [], []. split; [cbn; lia|]. intros s. now rewrite app_nil_r. }
  destruct (len (tokenize line) <? 5).
  { eexists _, []. split; [cbn; lia|]. intros s. now rewrite app_nil_r. }
  destruct (parse_record (tokenize line)) as [sp|e].
  - exists [], [sp]. split; [cbn; lia|]. reflexivity.
  - eexists _, []. split; [cbn; lia|]. intros s. now rewrite app_nil_r.
Qed.

Lemma records_loop_appends (numbered : list (Z * str)) :
  exists evs added,
    (length added <= length numbered)%nat /\
    forall sprites,
      records_loop numbered sprites = (evs, Ok (sprites ++ added)).
Proof.
  induction numbered as [|[n line] rest IH].
  - exists [], []. split; [cbn; lia|]. intros s. cbn [records_loop].
    unfold ret. now rewrite app_nil_r.
  - destruct (record_line_appends n line) as (e1 & a1 & L1 & H1).
    destruct IH as (e2 & a2 & L2 & H2).
    exists (e1 ++ e2), (a1 ++ a2). split.
    + rewrite length_app. cbn [length]. lia.
    + intros s. cbn [records_loop]. rewrite H1. cbn [bind]. rewrite H2.
      now rewrite <- app_assoc.
Qed.

(** X9: the record loop only appends: every line adds at most one sprite after
    those already parsed, and what a line adds does not depend on the other
    lines, so the sprites of two runs of lines one after the other are the
    sprites of the first run followed by those of the second. *)
Theorem record_loop_only_appends (a b : list (Z * str)) (start : list sprite) :
  exists sa sb,
    outcome (records_loop a []) = Ok sa /\
    outcome (records_loop b []) = Ok sb /\
    outcome (records_loop (a ++ b) start) = Ok (start ++ sa ++ sb) /\
    (length sa <= length a)%nat /\ (length sb <= length b)%nat.
Proof.
  destruct (records_loop_appends a) as (ea & sa & La & Ha).
  destruct (records_loop_appends b) as (eb & sb & Lb & Hb).
  exists sa, sb.
  rewrite records_loop_app, !Ha. cbn [bind]. rewrite !Hb.
  cbn [outcome snd app]. rewrite <- app_assoc. auto.
Qed.

(** X10: with a negative expected length (a negative height, or a negative
    width) the comparison [len(data) > expected] always holds and the slice
    counts from the end: the last [-expected] tokens are dropped, and nothing
    is kept when there are no more tokens than that. *)
Theorem negative_expected_length_drops_from_the_end (fields : list str)
    (sp : sprite)
    (Hparsed : parse_record fields = Ok sp)
    (Hneg : expected_data (sprite_width sp) (sprite_height sp) < 0) :
  let tokens := skipn 4 fields in
  let expected := expected_data (sprite_width sp) (sprite_height sp) in
  sprite_data sp = firstn (Z.to_nat (len tokens + expected)) tokens /\
  len (sprite_data sp) = Z.max 0 (len tokens + expected).
Proof.
  destruct (parse_record_inv fields sp Hparsed)
    as (p0 & p1 & p2 & p3 & rest & idx & w & h & -> & _ & _ & _ & ->).
  cbn [sprite_width sprite_height sprite_data skipn] in *. cbv zeta.
  assert (E : trim_data rest (expected_data w h) =
              firstn (Z.to_nat (len rest + expected_data w h)) rest).
  { unfold trim_data, slice_to. rewrite Z.gtb_ltb.
    pose proof (len_nonneg rest).
    destruct (Z.ltb_spec (expected_data w h) (len rest)); [|lia].
    destruct (Z.ltb_spec (expected_data w h) 0); [|lia].
    f_equal. lia. }
  split; [exact E|].
  rewrite E, len_firstn. pose proof (len_nonneg rest). lia.
Qed.

Lemma negative_expected_length_drops_from_the_end_witness :
  exists sp,
    parse_record (tokenize (lit "1,n,16,-1,5,6,7,8,9,10")) = Ok sp /\
    sprite_data sp = map lit ["5"; "6"]%string.
Proof.
  eexists. split; [reflexivity|].
  match goal with
  | |- sprite_data ?s = _ =>
      assert (H : parse_record (tokenize (lit "1,n,16,-1,5,6,7,8,9,10")) = Ok s)
        by reflexivity;
      rewrite (proj1 (negative_expected_length_drops_from_the_end _ _ H eq_refl))
  end.
  reflexivity.
Defined.

(** * Rendering *)

Lemma painted_weaken (w h : Z) (f : Z -> Z -> rgb) (img : image)
    (R R' : Z -> Z -> Prop) :
  painted w h f img R -> (forall a b, R' a b -> R a b) -> painted w h f img R'.
Proof.
  intros (Hx & Hy & Hp) Himp. repeat split; auto.
Qed.

Lemma putpixel_painted (w h : Z) (f : Z -> Z -> rgb) (img : image)
    (R : Z -> Z -> Prop) (x y : Z) (v : rgb) :
  painted w h f img R -> 0 <= x < w -> 0 <= y < h -> v = f x y ->
  exists img',
    putpixel img x y v = Ok img' /\
    painted w h f img' (fun a b => R a b \/ (a = x /\ b = y)).
Proof.
  intros (Hx & Hy & Hp) Hxr Hyr ->. unfold putpixel. rewrite Hx, Hy.
  destruct (Z.ltb_spec x 0); [lia|]. destruct (Z.ltb_spec y 0); [lia|].
  destruct (Z.ltb_spec x 0); [lia|]. destruct (Z.ltb_spec y 0); [lia|].
  destruct (Z.leb_spec w x); [lia|]. destruct (Z.leb_spec h y); [lia|].
  cbn [orb]. eexists. split; [reflexivity|].
  repeat split; cbn [xsize ysize pixel]; auto.
  intros a b [HR | [-> ->]].
  - destruct (Z.eqb_spec a x) as [->|]; cbn [andb]; [|now apply Hp].
    destruct (Z.eqb_spec b y) as [->|]; [reflexivity | now apply Hp].
  - now rewrite !Z.eqb_refl.
Qed.

Lemma for_each_painted {A} (w h : Z) (f : Z -> Z -> rgb)
    (body : image -> A -> result image) (Ra : A -> Z -> Z -> Prop) (l : list A) :
  (forall a, In a l -> forall img R, painted w h f img R ->
     exists img', body img a = Ok img' /\
                  painted w h f img' (fun x y => R x y \/ Ra a x y)) ->
  forall img R, painted w h f img R ->
    exists img', for_each l body img = Ok img' /\
                 painted w h f img' (fun x y => R x y \/ exists a, In a l /\ Ra a x y).
Proof.
  induction l as [|a r IH]; intros Hbody img R Hp; cbn [for_each].
  - exists img. split; [reflexivity|].
    apply (painted_weaken w h f img R); [exact Hp|].
    intros x y [HR | (a & [] & _)]. exact HR.
  - destruct (Hbody a (or_introl eq_refl) img R Hp) as (img1 & -> & Hp1).
    cbn [rbind].
    destruct (IH (fun b Hb => Hbody b (or_intror Hb)) img1 _ Hp1)
      as (img2 & -> & Hp2).
    exists img2. split; [reflexivity|].
    apply (painted_weaken w h f img2 _ _ Hp2).
    intros x y [HR | (b & [<- | Hb] & Hb')]; [tauto | tauto|].
    right. now exists b.
Qed.

Lemma enumerate_In {A} (l : list A) (start i : Z) (a : A) :
  In (i, a) (enumerate l start) ->
  start <= i < start + len l /\ nth_error l (Z.to_nat (i - start)) = Some a.
Proof.
  revert start. induction l as [|b r IH]; intros start; cbn [enumerate In];
    [tauto|].
  unfold len. cbn [length]. intros [E | Hin].
  - injection E as <- <-. rewrite Z.sub_diag. split; [lia | reflexivity].
  - apply IH in Hin. unfold len in Hin. destruct Hin as [Hr Hn]. split; [lia|].
    replace (Z.to_nat (i - start)) with (S (Z.to_nat (i - (start + 1)))) by lia.
    exact Hn.
Qed.

Lemma enumerate_nth {A} (l : list A) (start : Z) (k : nat) (a : A) :
  nth_error l k = Some a -> In (start + Z.of_nat k, a) (enumerate l start).
Proof.
  revert start k. induction l as [|b r IH]; intros start k; destruct k as [|k];
    cbn [nth_error enumerate In]; try discriminate.
  - intros E. injection E as <-. left. f_equal. lia.
  - intros E. right.
    replace (start + Z.of_nat (S k)) with (start + 1 + Z.of_nat k) by lia.
    now apply IH.
Qed.

Lemma palette_lookup (color_idx : Z) :
  getitem VGA_PALETTE (color_idx mod 16) = Ok (palette_color color_idx).
Proof.
  apply getitem_ok. change (len VGA_PALETTE) with 16.
  apply Z.mod_pos_bound. lia.
Qed.

Lemma div_cell (k s r : Z) : 0 <= r < s -> (k * s + r) / s = k.
Proof.
  intros Hr. rewrite Z.add_comm, Z.div_add by lia.
  rewrite Z.div_small by lia. lia.
Qed.

Lemma enumerate_In0 {A} (l : list A) (i : Z) (a : A) :
  In (i, a) (enumerate l 0) ->
  0 <= i < len l /\ nth_error l (Z.to_nat i) = Some a.
Proof.
  intros H. apply enumerate_In in H. rewrite Z.sub_0_r in H.
  destruct H. split; [lia | assumption].
Qed.

Lemma enumerate_nth0 {A} (l : list A) (i : Z) (d : A) :
  0 <= i < len l -> In (i, nth (Z.to_nat i) l d) (enumerate l 0).
Proof.
  intros Hi. unfold len in Hi.
  replace i with (0 + Z.of_nat (Z.to_nat i)) at 1 by lia.
  apply enumerate_nth, nth_error_nth'. lia.
Qed.

Lemma render_row (pixels : list (list Z)) (scale w : Z) (y : Z) (row : list Z) :
  let f := fun X Y =>
    palette_color (nth (Z.to_nat (X / scale))
                       (nth (Z.to_nat (Y / scale)) pixels []) 0) in
  0 <= scale -> len row = w ->
  0 <= y < len pixels -> nth_error pixels (Z.to_nat y) = Some row ->
  forall img R, painted (w * scale) (len pixels * scale) f img R ->
  exists img',
    for_each (enumerate row 0) (fun img '(x, color_idx) =>
      rgb <~ getitem VGA_PALETTE (color_idx mod 16) ;;
      for_each (range scale) (fun img sy =>
        for_each (range scale) (fun img sx =>
          putpixel img (x * scale + sx) (y * scale + sy) rgb) img) img) img
    = Ok img' /\
    painted (w * scale) (len pixels * scale) f img'
            (fun a b => R a b \/ row_region scale y row a b).
Proof.
  intros f Hs Hw Hy Hrow img R Hp.
  apply (for_each_painted (w * scale) (len pixels * scale) f _
           (fun xc => cell_region scale (fst xc) y)); [|exact Hp].
  intros [x c] Hxc img1 R1 Hp1. cbn [fst].
  apply enumerate_In0 in Hxc. destruct Hxc as [Hx Hc].
  rewrite palette_lookup. cbn [rbind].
  apply (for_each_painted (w * scale) (len pixels * scale) f _
           (fun sy a b => exists sx, In sx (range scale) /\
                                     (a = x * scale + sx /\ b = y * scale + sy)));
    [|exact Hp1].
  intros sy Hsy img2 R2 Hp2. apply range_nonneg in Hsy.
  apply (for_each_painted (w * scale) (len pixels * scale) f _
           (fun sx a b => a = x * scale + sx /\ b = y * scale + sy));
    [|exact Hp2].
  intros sx Hsx img3 R3 Hp3. apply range_nonneg in Hsx.
  apply putpixel_painted; [exact Hp3 | nia | nia |].
  subst f. cbv beta. rewrite !div_cell by lia.
  rewrite (nth_error_nth _ _ [] Hrow), (nth_error_nth _ _ 0 Hc).
  reflexivity.
Qed.

Lemma render_grid (pixels : list (list Z)) (scale w : Z) :
  let f := fun X Y =>
    palette_color (nth (Z.to_nat (X / scale))
                       (nth (Z.to_nat (Y / scale)) pixels []) 0) in
  0 <= scale -> Forall (fun row => len row = w) pixels ->
  exists img,
    create_sprite_image pixels scale = Ok img /\
    painted ((match pixels with [] => 0 | _ :: _ => w end) * scale)
            (len pixels * scale) f img
            (fun a b => exists yr, In yr (enumerate pixels 0) /\
                                   row_region scale (fst yr) (snd yr) a b).
Proof.
  intros f Hs Hrect. unfold create_sprite_image.
  set (W := (match pixels with [] => 0 | _ :: _ => w end) * scale).
  assert (EW : (match pixels with [] => 0 | row0 :: _ => len row0 end) * scale = W).
  { subst W. destruct pixels as [|row0 rest]; [reflexivity|].
    inversion Hrect; subst. reflexivity. }
  rewrite EW.
  assert (HW : 0 <= W).
  { subst W. destruct pixels as [|row0 rest]; [lia|].
    inversion Hrect as [|? ? Hl _]; subst. pose proof (len_nonneg row0). nia. }
  assert (HH : 0 <= len pixels * scale) by (pose proof (len_nonneg pixels); nia).
  unfold Image_new.
  destruct (Z.ltb_spec W 0); [lia|].
  destruct (Z.ltb_spec (len pixels * scale) 0); [lia|].
  cbn [orb rbind].
  assert (Hp0 : painted W (len pixels * scale) f
                  (Image W (len pixels * scale) (fun _ _ => (0, 0, 0)))
                  (fun _ _ => False)).
  { repeat split. intros a b []. }
  destruct (for_each_painted W (len pixels * scale) f
              (fun img '(y, row) =>
                 for_each (enumerate row 0) (fun img '(x, color_idx) =>
                   rgb <~ getitem VGA_PALETTE (color_idx mod 16) ;;
                   for_each (range scale) (fun img sy =>
                     for_each (range scale) (fun img sx =>
                       putpixel img (x * scale + sx) (y * scale + sy) rgb) img) img) img)
              (fun yr => row_region scale (fst yr) (snd yr))
              (enumerate pixels 0)) with (img := Image W (len pixels * scale) (fun _ _ => (0, 0, 0))) (R := fun (_ _ : Z) => False)
    as (img & E & Hp); [|exact Hp0|].
  - intros [y row] Hin img1 R1 Hp1. cbn [fst snd].
    apply enumerate_In0 in Hin. destruct Hin as [Hy Hrow].
    assert (Hne : W = w * scale).
    { subst W. destruct pixels; [|reflexivity].
      change (len (@nil (list Z))) with 0 in Hy. lia. }
    rewrite Hne in *.
    apply (render_row pixels scale w y row); auto.
    rewrite Forall_forall in Hrect. apply Hrect.
    now apply nth_error_In in Hrow.
  - exists img. split; [exact E|].
    apply (painted_weaken _ _ _ _ _ _ Hp). intros a b H'. now right.
Qed.

Lemma create_sprite_image_spec (pixels : list (list Z)) (scale w : Z) :
  0 <= scale -> Forall (fun row => len row = w) pixels ->
  exists img,
    create_sprite_image pixels scale = Ok img /\
    xsize img = (match pixels with [] => 0 | _ :: _ => w end) * scale /\
    ysize img = len pixels * scale /\
    forall X Y, 0 <= X < xsize img -> 0 <= Y < ysize img ->
      pixel img X Y =
      palette_color (nth (Z.to_nat (X / scale))
                         (nth (Z.to_nat (Y / scale)) pixels []) 0).
Proof.
  intros Hs Hrect.
  destruct (render_grid pixels scale w Hs Hrect) as (img & E & Hx & Hy & Hp).
  exists img. split; [exact E|]. split; [exact Hx|]. split; [exact Hy|].
  intros X Y HX HY. rewrite Hx in HX. rewrite Hy in HY.
  assert (Hpos : 0 < scale).
  { destruct (Z.eq_dec scale 0) as [E0|]; [|lia].
    rewrite E0, Z.mul_0_r in HY. lia. }
  assert (Hne : (match pixels with [] => 0 | _ :: _ => w end) = w).
  { destruct pixels; [|reflexivity].
    change (len (@nil (list Z))) with 0 in HY. lia. }
  rewrite Hne in HX.
  assert (Hyr : 0 <= Y / scale < len pixels).
  { split; [apply Z.div_pos; lia | apply Z.div_lt_upper_bound; lia]. }
  assert (Hxr : 0 <= X / scale < w).
  { split; [apply Z.div_pos; lia | apply Z.div_lt_upper_bound; lia]. }
  pose proof (Z.div_mod X scale ltac:(lia)) as HdX.
  pose proof (Z.div_mod Y scale ltac:(lia)) as HdY.
  pose proof (Z.mod_pos_bound X scale Hpos) as HmX.
  pose proof (Z.mod_pos_bound Y scale Hpos) as HmY.
  apply Hp.
  exists (Y / scale, nth (Z.to_nat (Y / scale)) pixels []).
  split; [now apply enumerate_nth0|]. cbn [fst snd].
  assert (Hl : len (nth (Z.to_nat (Y / scale)) pixels []) = w).
  { rewrite Forall_forall in Hrect. apply Hrect, nth_In.
    unfold len in Hyr. lia. }
  exists (X / scale, nth (Z.to_nat (X / scale))
                         (nth (Z.to_nat (Y / scale)) pixels []) 0).
  split; [apply enumerate_nth0; lia|]. cbn [fst].
  exists (Y mod scale). split; [now apply range_in|].
  exists (X mod scale). split; [now apply range_in|].
  split; lia.
Qed.

(** X11: on a rectangular grid (every row of the same length [w]) and with a
    scale that is not negative, the renderer raises nothing and returns an
    image of [w * scale] by [len(pixels) * scale] pixels (0 by 0 for an empty
    grid) in which the pixel at [(X, Y)] has the palette color of the grid cell
    at row [Y // scale], column [X // scale], its color index taken modulo
    16. *)
Theorem renderer_scales_every_cell (pixels : list (list Z)) (scale w : Z)
    (Hs : 0 <= scale) (Hrect : Forall (fun row => len row = w) pixels) :
  exists img,
    create_sprite_image pixels scale = Ok img /\
    xsize img = (match pixels with [] => 0 | _ :: _ => w end) * scale /\
    ysize img = len pixels * scale /\
    forall X Y, 0 <= X < xsize img -> 0 <= Y < ysize img ->
      pixel img X Y =
      nth (Z.to_nat (nth (Z.to_nat (X / scale))
                         (nth (Z.to_nat (Y / scale)) pixels []) 0 mod 16))
          VGA_PALETTE (0, 0, 0).
Proof. now apply create_sprite_image_spec. Qed.

Lemma renderer_scales_every_cell_witness :
  exists img,
    create_sprite_image [[1; 18]; [3; 4]] 4 = Ok img /\
    pixel img 7 2 = (0, 170, 0).
Proof.
  destruct (renderer_scales_every_cell [[1; 18]; [3; 4]] 4 2 ltac:(lia))
    as (img & E & Hx & Hy & Hp).
  { repeat constructor. }
  exists img. split; [exact E|].
  rewrite Hp; [reflexivity | rewrite Hx; lia | rewrite Hy; cbn; lia].
Defined.

(** X12: a grid returned by the rasterizer always renders: for a scale that is
    not negative the renderer returns an image of [max 0 width * scale] by
    [max 0 height * scale] pixels (no pixel at all when the height is not
    positive), and every pixel of it has the palette entry of the color index
    of its grid cell. *)
Theorem rasterized_grid_renders (data_values : list str) (width height scale : Z)
    (grid : list (list Z))
    (Hok : outcome (parse_sprite_data data_values width height) = Ok grid)
    (Hs : 0 <= scale) :
  exists img,
    create_sprite_image grid scale = Ok img /\
    xsize img = (if 0 <? height then Z.max 0 width else 0) * scale /\
    ysize img = Z.max 0 height * scale /\
    forall X Y, 0 <= X < xsize img -> 0 <= Y < ysize img ->
      let color := nth (Z.to_nat (X / scale)) (nth (Z.to_nat (Y / scale)) grid []) 0 in
      0 <= color <= 15 /\
      pixel img X Y = nth (Z.to_nat color) VGA_PALETTE (0, 0, 0).
Proof.
  apply parse_sprite_data_returns in Hok. subst grid.
  pose proof (grid_of_rows data_values width height) as Hrows.
  pose proof (grid_of_length data_values width height) as Hlen.
  set (grid := grid_of data_values width height) in *.
  destruct (create_sprite_image_spec grid scale (Z.max 0 width) Hs)
    as (img & E & Hx & Hy & Hp).
  { eapply Forall_impl; [|exact Hrows]. intros rp [Hl _].
    unfold len. rewrite Hl. lia. }
  assert (Hgl : len grid = Z.max 0 height) by (unfold len; lia).
  exists img. split; [exact E|]. split; [|split].
  - rewrite Hx. destruct (Z.ltb_spec 0 height);
      destruct grid; cbn [length] in Hlen; try reflexivity; lia.
  - now rewrite Hy, Hgl.
  - intros X Y HX HY. cbv zeta.
    assert (Hc : 0 <= nth (Z.to_nat (X / scale))
                          (nth (Z.to_nat (Y / scale)) grid []) 0 <= 15).
    { rewrite Hy, Hgl in HY.
      assert (0 < scale).
      { destruct (Z.eq_dec scale 0) as [E0|]; [|lia].
        rewrite E0, Z.mul_0_r in HY. lia. }
      assert (Hyr : (Z.to_nat (Y / scale) < length grid)%nat).
      { assert (Y / scale < Z.max 0 height)
          by (apply Z.div_lt_upper_bound; lia).
        assert (0 <= Y / scale) by (apply Z.div_pos; lia). lia. }
      rewrite Forall_forall in Hrows.
      destruct (Hrows _ (nth_In grid [] Hyr)) as [Hl Hcol].
      set (rp := nth (Z.to_nat (Y / scale)) grid []) in *.
      destruct (Nat.lt_ge_cases (Z.to_nat (X / scale)) (length rp)) as [Hlt|Hge].
      - rewrite Forall_forall in Hcol. apply Hcol. now apply nth_In.
      - rewrite nth_overflow by assumption. lia. }
    split; [exact Hc|].
    rewrite (Hp X Y HX HY). unfold palette_color.
    now rewrite Z.mod_small by lia.
Qed.

Lemma rasterized_grid_renders_witness :
  exists img,
    create_sprite_image (grid_of (map lit ["-1"; "0"; "255"; "-256"]%string) 16 1) 1
      = Ok img /\
    xsize img = 16 /\ ysize img = 1.
Proof.
  destruct (rasterized_grid_renders (map lit ["-1"; "0"; "255"; "-256"]%string)
              16 1 1 _ eq_refl ltac:(lia)) as (img & E & Hx & Hy & _).
  exists img. split; [exact E|]. split; [exact Hx | exact Hy].
Defined.

(** * File names and sheet layout *)









Lemma cell_row_bound (n i : Z) :
  0 <= i < n -> 0 <= i / sprites_per_row < num_rows n.
Proof.
  intros Hi. unfold num_rows, sprites_per_row. split.
  - apply Z.div_pos; lia.
  - apply Z.div_lt_upper_bound; [lia|].
    pose proof (Z.div_mod (n + 10 - 1) 10 ltac:(lia)).
    pose proof (Z.mod_pos_bound (n + 10 - 1) 10 ltac:(lia)).
    lia.
Qed.

(** X14: on a sprite sheet for [n] sprites, with a cell size and a padding
    that are not negative, the cell of every sprite [i < n] lies inside the
    sheet with the padding as margin on all sides, and the cells of two
    different sprites are apart by at least the padding, horizontally or
    vertically. *)
Theorem sheet_cells_fit_and_stay_apart (sprite_width sprite_height padding n i j : Z)
    (Hw : 0 <= sprite_width) (Hh : 0 <= sprite_height) (Hp : 0 <= padding)
    (Hi : 0 <= i < n) (Hj : 0 <= j < n) (Hij : i <> j) :
  let xi := fst (paste_position sprite_width sprite_height padding i) in
  let yi := snd (paste_position sprite_width sprite_height padding i) in
  let xj := fst (paste_position sprite_width sprite_height padding j) in
  let yj := snd (paste_position sprite_width sprite_height padding j) in
  padding <= xi /\ xi + sprite_width + padding <= sheet_width sprite_width padding /\
  padding <= yi /\ yi + sprite_height + padding <= sheet_height n sprite_height padding /\
  (xi + sprite_width + padding <= xj \/ xj + sprite_width + padding <= xi \/
   yi + sprite_height + padding <= yj \/ yj + sprite_height + padding <= yi).
Proof.
  cbv zeta. unfold paste_position, sheet_width, sheet_height. cbn [fst snd].
  pose proof (cell_row_bound n i Hi) as Hri.
  pose proof (cell_row_bound n j Hj) as Hrj.
  unfold sprites_per_row in *.
  pose proof (Z.div_mod i 10 ltac:(lia)) as Hdi.
  pose proof (Z.div_mod j 10 ltac:(lia)) as Hdj.
  pose proof (Z.mod_pos_bound i 10 ltac:(lia)) as Hmi.
  pose proof (Z.mod_pos_bound j 10 ltac:(lia)) as Hmj.
  set (ri := i / 10) in *. set (ci := i mod 10) in *.
  set (rj := j / 10) in *. set (cj := j mod 10) in *.
  set (cw := sprite_width + padding). set (ch := sprite_height + padding).
  assert (0 <= cw) by (subst cw; lia). assert (0 <= ch) by (subst ch; lia).
  split; [nia|]. split; [subst cw; nia|]. split; [nia|]. split; [subst ch; nia|].
  destruct (Z.lt_trichotomy ri rj) as [Hlt | [Heq | Hgt]].
  - right. right. left. subst ch. nia.
  - destruct (Z.lt_trichotomy ci cj) as [Hc | [Hc | Hc]].
    + left. subst cw. nia.
    + exfalso. lia.
    + right. left. subst cw. nia.
  - right. right. right. subst ch. nia.
Qed.

Lemma sheet_cells_fit_and_stay_apart_witness :
  fst (paste_position 64 96 4 9) + 64 + 4 <= sheet_width 64 4 /\
  snd (paste_position 64 96 4 9) + 96 + 4 <= snd (paste_position 64 96 4 10).
Proof.
  pose proof (sheet_cells_fit_and_stay_apart 64 96 4 11 9 10
                ltac:(lia) ltac:(lia) ltac:(lia) ltac:(lia) ltac:(lia) ltac:(lia))
    as (_ & Hfit & _).
  split; [exact Hfit|]. vm_compute. discriminate.
Defined.

(** * Quoted names in record lines *)

Lemma raw_fields_plain_prefix (s rest acc : str) :
  ~ In comma s -> ~ In dquote s ->
  raw_fields false acc (s ++ comma :: rest) = (acc ++ s) :: raw_fields false [] rest.
Proof.
  revert acc. induction s as [|c r IH]; intros acc Hc Hq; cbn [app raw_fields].
  - change (Ascii.eqb comma dquote) with false.
    rewrite Ascii.eqb_refl, app_nil_r. reflexivity.
  - destruct (Ascii.eqb_spec c dquote) as [->|_]; [exfalso; apply Hq; now left|].
    destruct (Ascii.eqb_spec c comma) as [->|_]; [exfalso; apply Hc; now left|].
    rewrite IH, <- app_assoc; [reflexivity | |]; intros H; [apply Hc | apply Hq];
      now right.
Qed.

Lemma raw_fields_quoted (name rest acc : str) :
  ~ In dquote name ->
  raw_fields true acc (name ++ dquote :: rest) =
  raw_fields false (acc ++ name ++ [dquote]) rest.
Proof.
  revert acc. induction name as [|c r IH]; intros acc Hq; cbn [app raw_fields].
  - rewrite Ascii.eqb_refl. reflexivity.
  - destruct (Ascii.eqb_spec c dquote) as [->|_]; [exfalso; apply Hq; now left|].
    rewrite IH, <- app_assoc; [reflexivity|]. intros H. apply Hq. now right.
Qed.

Lemma dropwhile_head {A} (p : A -> bool) (a : A) (l : list A) :
  p a = false -> dropwhile p (a :: l) = a :: l.
Proof. intros H. cbn [dropwhile]. now rewrite H. Qed.

Lemma strip_with_ends (p : ascii -> bool) (a b : ascii) (s : str) :
  p a = false -> p b = false -> strip_with p (a :: s ++ [b]) = a :: s ++ [b].
Proof.
  intros Ha Hb. unfold strip_with.
  rewrite dropwhile_head by assumption.
  change (a :: s ++ [b]) with ((a :: s) ++ [b]).
  rewrite rev_app_distr. cbn [rev app].
  rewrite dropwhile_head by assumption.
  change (b :: rev s ++ [a]) with (rev [b] ++ rev (a :: s)).
  now rewrite <- rev_app_distr, rev_involutive.
Qed.

Lemma dropwhile_id {A} (p : A -> bool) (l : list A) :
  (forall a, In a l -> p a = false) -> dropwhile p l = l.
Proof.
  destruct l as [|a r]; [reflexivity|].
  intros H. apply dropwhile_head, H. now left.
Qed.

Lemma strip_char_quoted (name : str) :
  ~ In dquote name -> strip_char dquote (dquote :: name ++ [dquote]) = name.
Proof.
  intros Hq. unfold strip_char, strip_with.
  assert (Hn : forall a, In a name -> Ascii.eqb dquote a = false).
  { intros a Ha. destruct (Ascii.eqb_spec dquote a); [now subst | reflexivity]. }
  cbn [dropwhile]. rewrite Ascii.eqb_refl.
  destruct name as [|c r].
  - cbn [app dropwhile]. rewrite Ascii.eqb_refl. reflexivity.
  - rewrite dropwhile_app, (dropwhile_id _ (c :: r) Hn).
    rewrite rev_app_distr. cbn [rev app dropwhile].
    rewrite Ascii.eqb_refl.
    change (rev r ++ [c]) with (rev (c :: r)).
    rewrite dropwhile_id; [apply rev_involutive|].
    intros a Ha. apply Hn. now apply in_rev.
Qed.

Lemma raw_fields_comma (acc rest : str) :
  raw_fields false acc (comma :: rest) = acc :: raw_fields false [] rest.
Proof. reflexivity. Qed.

Lemma tokenize_quoted_second_field (p0 name tail : str) :
  ~ In comma p0 -> ~ In dquote p0 -> ~ In dquote name ->
  tokenize (p0 ++ comma :: dquote :: name ++ dquote :: comma :: tail) =
  strip p0 :: (dquote :: name ++ [dquote]) :: tokenize tail.
Proof.
  intros Hc Hq Hn.
  pose proof (fun l => tok_run_refines l (TokState [] false [])) as E.
  cbn [parts in_quotes current app] in E.
  change (forall l, tokenize l = map strip (raw_fields false [] l)) in E.
  rewrite !E, raw_fields_plain_prefix by assumption.
  cbn [raw_fields app]. rewrite Ascii.eqb_refl. cbn [negb].
  rewrite raw_fields_quoted by assumption.
  cbn [app]. rewrite raw_fields_comma. cbn [map].
  f_equal. f_equal. unfold strip.
  apply strip_with_ends; reflexivity.
Qed.

(** X15: in a record line the quoted name is one field whatever it holds
    besides quote characters: for a line [index,"name",rest] whose index field
    has no comma and no quote and whose name has no quote, a sprite parsed
    from the line has exactly that name, commas and blanks included. *)
Theorem quoted_record_name_is_kept (p0 name tail : str) (sp : sprite)
    (Hc : ~ In comma p0) (Hq : ~ In dquote p0) (Hn : ~ In dquote name)
    (Hparsed : parse_record
                 (tokenize (p0 ++ comma :: dquote :: name ++ dquote :: comma :: tail))
               = Ok sp) :
  sprite_name sp = name.
Proof.
  rewrite tokenize_quoted_second_field in Hparsed by assumption.
  destruct (parse_record_inv _ _ Hparsed)
    as (q0 & q1 & q2 & q3 & rest & idx & w & h & E & _ & _ & _ & ->).
  injection E as _ <- _. cbn [sprite_name].
  now apply strip_char_quoted.
Qed.

Lemma quoted_record_name_is_kept_witness :
  exists sp,
    parse_record (tokenize (lit "4" ++ comma :: dquote ::
                            lit " Ore, big " ++ dquote :: comma :: lit "16,1,0,0,0,0"))
      = Ok sp /\
    sprite_name sp = lit " Ore, big ".
Proof.
  eexists. split; [reflexivity|].
  match goal with
  | |- sprite_name ?s = _ =>
      apply (quoted_record_name_is_kept (lit "4") (lit " Ore, big ")
               (lit "16,1,0,0,0,0") s)
  end.
  - apply not_In_existsb. reflexivity.
  - apply not_In_existsb. reflexivity.
  - apply not_In_existsb. reflexivity.
  - reflexivity.
Defined.
